(** * robicode/version: Gem::Version and Gem::Requirement ported to Go

    A shallow embedding of [version.go] (package [version]) and of the two
    revisions of [requirement.go] (package [requirement]) found in the
    repository, followed by the properties proved about them.

    Conventions of the embedding:
    - a Go [string] is a [string] of bytes ([ascii]); [==] on strings is
      [String.eqb];
    - a Go [int] is a [Z] in the 64-bit range, with the wrap-around written
      out where the code does arithmetic ([wrapInt]);
    - a slice is a [list]; where the code re-slices a slice that shares its
      backing array with another one, the backing array is kept explicitly;
    - a [(T, error)] result is a [result T]; a function that can [panic] in
      addition returns an [outcome];
    - [regexp.MustCompile(p).MatchString(s)] is [Regexp.MatchString p s]
      for the pattern [p] written as a [Regexp.regex]. *)

From Stdlib Require Import ZArith List String Ascii Bool Lia DecimalString.
Import ListNotations.
Open Scope string_scope.

(* ================================================================== *)
(** ** Results, errors and panics *)

Inductive result (A : Type) : Type :=
| Ok (a : A)
| Err (msg : string).
Arguments Ok {A} a.
Arguments Err {A} msg.

(** What a call of a Go function that may panic does: it returns, or it
    panics with a value (a runtime error included). *)
Inductive outcome (A : Type) : Type :=
| Returns (a : A)
| Panics (msg : string).
Arguments Returns {A} a.
Arguments Panics {A} msg.

(* ================================================================== *)
(** ** Package regexp: the fragment of RE2 the repository uses *)

Module Regexp.

(** Patterns: character classes over bytes, concatenation, alternation,
    iteration, and the two zero-width assertions [\A] and [\z]. *)
Inductive regex : Type :=
| Void
| Eps
| Cls (p : ascii -> bool)
| Cat (r1 r2 : regex)
| Alt (r1 r2 : regex)
| Star (r : regex)
| BeginText
| EndText.

Definition Plus (r : regex) : regex := Cat r (Star r).
Definition Opt (r : regex) : regex := Alt r Eps.
Definition Lit (c : ascii) : regex := Cls (Ascii.eqb c).

Fixpoint Seq (rs : list regex) : regex :=
  match rs with
  | [] => Eps
  | [r] => r
  | r :: rs' => Cat r (Seq rs')
  end.

Fixpoint OneOf (rs : list regex) : regex :=
  match rs with
  | [] => Void
  | [r] => r
  | r :: rs' => Alt r (OneOf rs')
  end.

Fixpoint Word (s : string) : regex :=
  match s with
  | EmptyString => Eps
  | String c EmptyString => Lit c
  | String c s' => Cat (Lit c) (Word s')
  end.

Definition inRange (lo hi : nat) (c : ascii) : bool :=
  (lo <=? nat_of_ascii c)%nat && (nat_of_ascii c <=? hi)%nat.

(** [[0-9]], [[a-z]], [[A-Z]], [[a-zA-Z]], [[0-9a-zA-Z]], [[0-9a-zA-Z-]] *)
Definition digit (c : ascii) : bool := inRange 48 57 c.
Definition lower (c : ascii) : bool := inRange 97 122 c.
Definition upper (c : ascii) : bool := inRange 65 90 c.
Definition letter (c : ascii) : bool := lower c || upper c.
Definition alnum (c : ascii) : bool := digit c || letter c.
Definition alnumDash (c : ascii) : bool := alnum c || Ascii.eqb c "-".
(** [\s] is [[\t\n\f\r ]] in RE2. *)
Definition space (c : ascii) : bool :=
  let n := nat_of_ascii c in
  (n =? 9)%nat || (n =? 10)%nat || (n =? 12)%nat || (n =? 13)%nat
  || (n =? 32)%nat.
Definition anyByte (c : ascii) : bool := true.

(** [nullable b e r]: [r] matches the empty string at a position that is
    the beginning of the text iff [b] and its end iff [e]. *)
Fixpoint nullable (b e : bool) (r : regex) : bool :=
  match r with
  | Void => false
  | Eps => true
  | Cls _ => false
  | Cat r1 r2 => nullable b e r1 && nullable b e r2
  | Alt r1 r2 => nullable b e r1 || nullable b e r2
  | Star _ => true
  | BeginText => b
  | EndText => e
  end.

(** Concatenation with the two trivial cases simplified, which keeps the
    derivatives small. *)
Definition cat (r1 r2 : regex) : regex :=
  match r1 with
  | Void => Void
  | Eps => r2
  | _ => Cat r1 r2
  end.

(** [deriv b c r]: what remains of [r] once it has read the byte [c] at a
    position that is the beginning of the text iff [b]; the position is
    not the end of the text, since [c] is there. *)
Fixpoint deriv (b : bool) (c : ascii) (r : regex) : regex :=
  match r with
  | Void => Void
  | Eps => Void
  | Cls p => if p c then Eps else Void
  | Cat r1 r2 =>
      if nullable b false r1
      then Alt (cat (deriv b c r1) r2) (deriv b c r2)
      else cat (deriv b c r1) r2
  | Alt r1 r2 => Alt (deriv b c r1) (deriv b c r2)
  | Star r1 => cat (deriv b c r1) (Star r1)
  | BeginText => Void
  | EndText => Void
  end.

(** [matchFrom b r s]: [r] matches exactly the rest [s] of the text. *)
Fixpoint matchFrom (b : bool) (r : regex) (s : string) : bool :=
  match s with
  | EmptyString => nullable b true r
  | String c s' => matchFrom false (deriv b c r) s'
  end.

(** [MatchString]: the text contains a match of [r] (not anchored). *)
Definition MatchString (r : regex) (s : string) : bool :=
  matchFrom true (Cat (Star (Cls anyByte)) (Cat r (Star (Cls anyByte)))) s.

End Regexp.

(* ================================================================== *)
(** ** What the patterns mean *)

Module RegexpSemantics.

Import Regexp.

Definition isEmpty (s : string) : bool :=
  match s with
  | EmptyString => true
  | String _ _ => false
  end.

(** [Matches r b s e]: the pattern [r] matches the piece [s] of a text,
    where [b] tells whether the piece starts at the beginning of the text
    and [e] whether it stops at its end.  Iterations of a starred pattern
    that read nothing are left out; they add no match. *)
Inductive Matches : regex -> bool -> string -> bool -> Prop :=
| MEps (b e : bool) : Matches Eps b EmptyString e
| MCls (p : ascii -> bool) (c : ascii) (b e : bool) :
    p c = true -> Matches (Cls p) b (String c EmptyString) e
| MCat (r1 r2 : regex) (b e : bool) (s1 s2 : string) :
    Matches r1 b s1 (e && isEmpty s2) ->
    Matches r2 (b && isEmpty s1) s2 e ->
    Matches (Cat r1 r2) b (s1 ++ s2) e
| MAltL (r1 r2 : regex) (b e : bool) (s : string) :
    Matches r1 b s e -> Matches (Alt r1 r2) b s e
| MAltR (r1 r2 : regex) (b e : bool) (s : string) :
    Matches r2 b s e -> Matches (Alt r1 r2) b s e
| MStarNil (r : regex) (b e : bool) : Matches (Star r) b EmptyString e
| MStarCons (r : regex) (b e : bool) (c : ascii) (s1 s2 : string) :
    Matches r b (String c s1) (e && isEmpty s2) ->
    Matches (Star r) false s2 e ->
    Matches (Star r) b (String c s1 ++ s2) e
| MBegin (e : bool) : Matches BeginText true EmptyString e
| MEnd (b : bool) : Matches EndText b EmptyString true.

(** The bytes some class of the pattern accepts. *)
Fixpoint accepts (r : regex) (c : ascii) : bool :=
  match r with
  | Cls p => p c
  | Cat r1 r2 | Alt r1 r2 => accepts r1 c || accepts r2 c
  | Star r1 => accepts r1 c
  | Void | Eps | BeginText | EndText => false
  end.

End RegexpSemantics.

(* ================================================================== *)
(** ** Package strings *)

Module Strings.

(** [unicode.IsSpace] on the bytes below 0x80: tab, newline, vertical
    tab, form feed, carriage return and space.  [TrimSpace] is only
    applied by [version.New] to strings that matched the anchored version
    pattern, whose classes are all ASCII. *)
Definition isSpace (c : ascii) : bool :=
  let n := nat_of_ascii c in
  ((9 <=? n)%nat && (n <=? 13)%nat) || (n =? 32)%nat.

Fixpoint trimLeft (s : string) : string :=
  match s with
  | EmptyString => EmptyString
  | String c s' => if isSpace c then trimLeft s' else s
  end.

Fixpoint trimRight (s : string) : string :=
  match s with
  | EmptyString => EmptyString
  | String c s' =>
      match trimRight s' with
      | EmptyString => if isSpace c then EmptyString else String c EmptyString
      | t => String c t
      end
  end.

Definition TrimSpace (s : string) : string := trimRight (trimLeft s).

(** Every byte of [s] satisfies [p]. *)
Fixpoint allBytes (p : ascii -> bool) (s : string) : bool :=
  match s with
  | EmptyString => true
  | String c s' => p c && allBytes p s'
  end.

(** [strings.ReplaceAll(s, "-", new)]: the old string is one byte. *)
Fixpoint ReplaceAllByte (s : string) (old : ascii) (new : string) : string :=
  match s with
  | EmptyString => EmptyString
  | String c s' =>
      if Ascii.eqb c old then new ++ ReplaceAllByte s' old new
      else String c (ReplaceAllByte s' old new)
  end.

Fixpoint Join (elems : list string) (sep : string) : string :=
  match elems with
  | [] => EmptyString
  | [e] => e
  | e :: rest => e ++ sep ++ Join rest sep
  end.

(** [strings.Split(s, " ")]: the separator is one byte; the result always
    has at least one element. *)
Fixpoint SplitByte (s : string) (sep : ascii) : list string :=
  match s with
  | EmptyString => [EmptyString]
  | String c s' =>
      if Ascii.eqb c sep then EmptyString :: SplitByte s' sep
      else match SplitByte s' sep with
           | [] => [String c EmptyString]
           | p :: ps => String c p :: ps
           end
  end.

Fixpoint Contains (s substr : string) : bool :=
  prefix substr s
  || match s with
     | EmptyString => false
     | String _ s' => Contains s' substr
     end.

Fixpoint dropBytes (n : nat) (s : string) : string :=
  match n, s with
  | O, _ => s
  | S n', String _ s' => dropBytes n' s'
  | S _, EmptyString => EmptyString
  end.

(** [strings.Replace(s, old, "", 1)]: the first occurrence of [old] is
    removed. *)
Fixpoint RemoveFirst (s old : string) : string :=
  if prefix old s then dropBytes (String.length old) s
  else match s with
       | EmptyString => EmptyString
       | String c s' => String c (RemoveFirst s' old)
       end.

(** Every element of [elems] with [sep] in front, one after the other:
    what [Join] adds after its first element. *)
Fixpoint joinTail (elems : list string) (sep : string) : string :=
  match elems with
  | [] => EmptyString
  | e :: rest => sep ++ e ++ joinTail rest sep
  end.

(** Some byte of [s] satisfies [p]. *)
Fixpoint someByte (p : ascii -> bool) (s : string) : bool :=
  match s with
  | EmptyString => false
  | String c s' => p c || someByte p s'
  end.

End Strings.

(* ================================================================== *)
(** ** Package strconv *)

Module Strconv.

Definition maxInt : Z := 9223372036854775807.
Definition minInt : Z := -9223372036854775808.
Definition maxUint64 : Z := 18446744073709551615.

Inductive uintResult : Type :=
| UVal (n : Z)
| USyntax
| URange.

(** The loop of [ParseUint(s, 10, 64)]: the bytes are read from the left;
    a byte that is no digit is a syntax error, an overflow a range
    error, whichever comes first. *)
Fixpoint parseUintLoop (s : string) (n : Z) : uintResult :=
  match s with
  | EmptyString => UVal n
  | String c s' =>
      if Regexp.digit c then
        if (maxUint64 / 10 + 1 <=? n)%Z then URange
        else
          let n1 := (n * 10 + (Z.of_nat (nat_of_ascii c) - 48))%Z in
          if (maxUint64 <? n1)%Z then URange else parseUintLoop s' n1
      else USyntax
  end.

Definition ParseUint (s : string) : uintResult :=
  match s with
  | EmptyString => USyntax
  | _ => parseUintLoop s 0
  end.

(** [strconv.Atoi]: the value and whether [err == nil].  On a syntax
    error the value is 0; on a range error it is the nearest bound. *)
Definition Atoi (s : string) : Z * bool :=
  match s with
  | EmptyString => (0%Z, false)
  | String c s' =>
      let neg := Ascii.eqb c "-" in
      let body := if neg || Ascii.eqb c "+" then s' else s in
      match ParseUint body with
      | USyntax => (0%Z, false)
      | URange => (if neg then minInt else maxInt, false)
      | UVal un =>
          if negb neg && (maxInt + 1 <=? un)%Z then (maxInt, false)
          else if neg && (maxInt + 1 <? un)%Z then (minInt, false)
          else (if neg then (- un)%Z else un, true)
      end
  end.

Definition Itoa (n : Z) : string := NilZero.string_of_int (Z.to_int n).

End Strconv.

(** Arithmetic on [int] wraps around at 64 bits. *)
Definition wrapInt (z : Z) : Z :=
  ((z + 9223372036854775808) mod 18446744073709551616 - 9223372036854775808)%Z.

(* ================================================================== *)
(** ** Package version (version.go) *)

Module Version.

Import Regexp.

Record Version : Type := mkVersion { version : string }.

(** [reflect.Kind], of which [extractKind] returns two values. *)
Inductive Kind : Type :=
| KindString
| KindInt.

Definition Kind_eqb (k1 k2 : Kind) : bool :=
  match k1, k2 with
  | KindString, KindString => true
  | KindInt, KindInt => true
  | _, _ => false
  end.

(** The pattern, with blanks added between its groups:
    [0-9]+ (\.[0-9a-zA-Z]+)* (-[0-9a-zA-Z-]+ (\.[0-9a-zA-Z-]+)* )? *)
Definition VersionPattern : regex :=
  Seq [ Plus (Cls digit);
        Star (Cat (Lit ".") (Plus (Cls alnum)));
        Opt (Seq [ Lit "-"; Plus (Cls alnumDash);
                   Star (Cat (Lit ".") (Plus (Cls alnumDash))) ]) ].

(** The pattern "\A\s*(%s)?\s*\z" around [VersionPattern]. *)
Definition VersionPatternAnchored : regex :=
  Seq [ BeginText; Star (Cls space); Opt VersionPattern;
        Star (Cls space); EndText ].

(** The pattern "/\A\s*\z/" of [New], slashes included. *)
Definition slashedBlankPattern : regex :=
  Seq [ Lit "/"; BeginText; Star (Cls space); EndText; Lit "/" ].

(** The patterns "[a-zA-Z]+" and "[a-zA-Z]" *)
Definition lettersPattern : regex := Plus (Cls letter).
Definition letterPattern : regex := Cls letter.

Definition isCorrect (version : string) : bool :=
  MatchString VersionPatternAnchored version.

Definition New (version : string) : result Version :=
  if negb (isCorrect version) then
    Err ("malformed version number string: '" ++ version ++ "'")
  else
    let ver := version in
    let ver := if MatchString slashedBlankPattern version then "0" else ver in
    let ver := Strings.TrimSpace ver in
    let ver := Strings.ReplaceAllByte ver "-" ".pre." in
    Ok (mkVersion ver).

(** [New2]: the version, or nil on error. *)
Definition New2 (version : string) : option Version :=
  match New version with
  | Ok v => Some v
  | Err _ => None
  end.

(** [FindAllString] for "[0-9]+|[a-zA-Z]+": the successive leftmost
    matches, each one a maximal run of digits or a maximal run of
    letters. *)
Fixpoint findAllRuns (s : string) : list string :=
  match s with
  | EmptyString => []
  | String c s' =>
      let rest := findAllRuns s' in
      let one := String c EmptyString in
      if digit c then
        match s', rest with
        | String d _, seg :: more =>
            if digit d then String c seg :: more else one :: rest
        | _, _ => one :: rest
        end
      else if letter c then
        match s', rest with
        | String d _, seg :: more =>
            if letter d then String c seg :: more else one :: rest
        | _, _ => one :: rest
        end
      else rest
  end.

Definition segments (v : Version) : list string := findAllRuns (version v).

Definition IsPrerelease (v : Version) : bool :=
  MatchString letterPattern (version v).

(** The loop that [Bump], [Release] and [ApproximateRecommendation] each
    contain:
    [for i, segment := range segments { if letters.MatchString(segment)
    { segments = segments[0:i] } }].
    The range expression is evaluated once, so the loop visits every
    element of the original slice [backing]; each re-slice [segments[0:i]]
    stays within the capacity of the shared backing array and yields its
    first [i] elements.  [rest] is what is left to visit from index [i],
    [cur] the current value of the variable [segments]. *)
Fixpoint truncateLoop (backing : list string) (i : nat)
         (rest cur : list string) : list string :=
  match rest with
  | [] => cur
  | segment :: rest' =>
      truncateLoop backing (S i) rest'
        (if MatchString lettersPattern segment then firstn i backing else cur)
  end.

Definition truncateSegments (segs : list string) : list string :=
  truncateLoop segs 0 segs segs.

Definition Bump (v : Version) : outcome (result Version) :=
  let segments := truncateSegments (segments v) in
  let segments :=
    if (1 <? List.length segments)%nat
    then firstn (List.length segments - 1) segments else segments in
  match rev segments with
  | [] => Panics "runtime error: index out of range [-1]"
  | lastSegment :: _ =>
      let (num, ok) := Strconv.Atoi lastSegment in
      if negb ok then Panics "last element string should contain an int"
      else
        let num := wrapInt (num + 1) in
        let segments :=
          (firstn (List.length segments - 1) segments ++ [Strconv.Itoa num])%list in
        let version := Strings.Join segments "." in
        match New version with
        | Err e => Returns (Err e)
        | Ok ver => Returns (Ok ver)
        end
  end.

(** [Release]: [None] is the nil the code returns when [New] fails. *)
Definition Release (v : Version) : option Version :=
  if negb (IsPrerelease v) then Some v
  else
    let segments := truncateSegments (segments v) in
    match New (Strings.Join segments ".") with
    | Err _ => None
    | Ok newVersion => Some newVersion
    end.

Definition Eql (v other : Version) : bool :=
  String.eqb (version v) (version other).

Definition ApproximateRecommendation (v : Version) : string :=
  let segments := truncateSegments (segments v) in
  let segments :=
    if (2 <? List.length segments)%nat then firstn 2 segments else segments in
  let segments :=
    if (List.length segments <? 2)%nat then (segments ++ ["0"])%list else segments in
  let recommendation := "~> " ++ Strings.Join segments "." in
  if IsPrerelease v then recommendation ++ ".a" else recommendation.

(** The index of the first segment with a letter, 0 when there is none. *)
Fixpoint firstLetterIndex (segs : list string) (i : nat) : nat :=
  match segs with
  | [] => 0
  | s :: segs' =>
      if MatchString lettersPattern s then i else firstLetterIndex segs' (S i)
  end.

Definition splitSegments (v : Version) : list string * list string :=
  let segments := segments v in
  let stringStart := firstLetterIndex segments 0 in
  let stringStart :=
    if (stringStart =? 0)%nat then List.length segments else stringStart in
  let stringElements := skipn stringStart segments in
  let numericSegments := firstn stringStart segments in
  (numericSegments, stringElements).

Fixpoint deleteLoop (arr : list string) (i elem : nat) : list string :=
  match arr with
  | [] => []
  | v :: arr' =>
      if (i =? elem)%nat then deleteLoop arr' (S i) elem
      else v :: deleteLoop arr' (S i) elem
  end.

Definition deleteArrayElement (arr : list string) (elem : nat) : list string :=
  match arr with
  | [] => arr
  | _ => deleteLoop arr 0 elem
  end.

(** First loop of [canonicalSegments]: [iter] is what the range still has
    to visit of the reversed slice, [numerics] the variable. *)
Fixpoint trimNumerics (iter numerics : list string) : list string :=
  match iter with
  | [] => numerics
  | v :: iter' =>
      let (value, _) := Strconv.Atoi v in
      if (value =? 0)%Z then trimNumerics iter' (deleteArrayElement numerics 0)
      else numerics
  end.

(** Second loop: it also stops at a segment [Atoi] rejects. *)
Fixpoint trimStrings (iter stringset : list string) : list string :=
  match iter with
  | [] => stringset
  | v :: iter' =>
      let (value, ok) := Strconv.Atoi v in
      if negb ok then stringset
      else if (value =? 0)%Z
           then trimStrings iter' (deleteArrayElement stringset 0)
           else stringset
  end.

Definition canonicalSegments (v : Version) : list string :=
  let (numerics, stringset) := splitSegments v in
  let numerics := rev numerics in
  let stringset := rev stringset in
  let numerics := trimNumerics numerics numerics in
  let stringset := trimStrings stringset stringset in
  let numerics := rev numerics in
  let stringset := rev stringset in
  (numerics ++ stringset)%list.

Definition extractKind (s : string) : Kind :=
  if MatchString lettersPattern s then KindString else KindInt.

Fixpoint strArraysEqualLoop (sa1 sa2 : list string) (eq : bool) : bool :=
  match sa1, sa2 with
  | v :: sa1', w :: sa2' =>
      strArraysEqualLoop sa1' sa2' (if String.eqb v w then eq else false)
  | _, _ => eq
  end.

Definition strArraysEqual (sa1 sa2 : list string) : bool :=
  if negb (List.length sa1 =? List.length sa2)%nat then false
  else strArraysEqualLoop sa1 sa2 true.

(** The element of [l] at position [i], or ["0"] past its end. *)
Definition padded (l : list string) (i : nat) : string :=
  if (i <? List.length l)%nat then nth i l EmptyString else "0".

(** The loop [for i := 0; i <= limit; i++] of [Compare], from position
    [i] with [n] iterations left. *)
Fixpoint compareLoop (l r : list string) (i n : nat) : Z :=
  match n with
  | O => 0%Z
  | S n' =>
      let li := padded l i in
      let ri := padded r i in
      if String.eqb li ri then compareLoop l r (S i) n'
      else if Kind_eqb (extractKind li) KindString
              && Kind_eqb (extractKind ri) KindInt then (-1)%Z
      else if Kind_eqb (extractKind li) KindInt
              && Kind_eqb (extractKind ri) KindString then 1%Z
      else if Kind_eqb (extractKind li) KindString
              && Kind_eqb (extractKind ri) KindString
           then compareLoop l r (S i) n'
      else
        let (lint, _) := Strconv.Atoi li in
        let (rint, _) := Strconv.Atoi ri in
        if (rint <? lint)%Z then 1%Z else (-1)%Z
  end.

Definition Compare (v o : Version) : Z :=
  let l := canonicalSegments v in
  let r := canonicalSegments o in
  if String.eqb (version v) (version o) || strArraysEqual l r then 0%Z
  else
    let lsz := Z.of_nat (List.length l) in
    let rsz := Z.of_nat (List.length r) in
    let limit := if (rsz <? lsz)%Z then lsz else rsz in
    let limit := (limit - 1)%Z in
    compareLoop l r 0 (Z.to_nat (limit + 1)).

(** What a segment is: not empty, and made of digits only or of letters
    only. *)
Definition wellFormedSegment (seg : string) : Prop :=
  seg <> EmptyString
  /\ (Strings.allBytes digit seg = true
      \/ Strings.allBytes letter seg = true).

(** [s] with its element at index [i] replaced by [x]. *)
Fixpoint setIndex (s : list string) (i : nat) (x : string) : list string :=
  match s, i with
  | [], _ => []
  | _ :: s', O => x :: s'
  | y :: s', S i' => y :: setIndex s' i' x
  end.

(** [reflect.Swapper(s)(i, j)]: the elements at [i] and [j] change places.
    The function panics out of range, which the loop of [reverseSlice]
    never reaches; the model leaves the slice as it is there. *)
Definition swap (s : list string) (i j : nat) : list string :=
  match nth_error s i, nth_error s j with
  | Some a, Some b => setIndex (setIndex s i b) j a
  | _, _ => s
  end.

(** The loop [for i, j := 0, size-1; i < j; i, j = i+1, j-1 { swap(i, j) }]
    with [fuel] iterations at most.  On the empty slice [j] starts at -1
    in the code and at 0 here; the loop has no iteration either way. *)
Fixpoint reverseLoop (fuel : nat) (s : list string) (i j : nat) : list string :=
  match fuel with
  | O => s
  | S fuel' =>
      if (i <? j)%nat then reverseLoop fuel' (swap s i j) (S i) (j - 1) else s
  end.

(** [reverseSlice]: the slice after the call, which reverses it in place. *)
Definition reverseSlice (s : list string) : list string :=
  let size := List.length s in
  reverseLoop size s 0 (size - 1).

End Version.

(* ================================================================== *)
(** ** Package requirement: what both revisions share *)

Module RequirementBase.

Import Regexp.

(** The functions the table [ops] dispatches to. *)
Inductive operationFunc : Type :=
| equals | notEquals | greaterThan | lessThan | gte | lte | tildeGT.

Record opFunc : Type := mkOpFunc { Op : string; Func : operationFunc }.

(** [pattern], built from the list [Ops] of the revision:
    "\A\s*(" + strings.Join(Ops, "|") + ")?\s*(" + VersionPattern
    + ")\s*\z". *)
Definition patternOf (Ops : list string) : regex :=
  Seq [ BeginText; Star (Cls space); Opt (OneOf (map Word Ops));
        Star (Cls space); Version.VersionPattern; Star (Cls space);
        EndText ].

Definition versionPatternText : string :=
  "[0-9]+(\.[0-9a-zA-Z]+)*" ++ "(-[0-9a-zA-Z-]+(\.[0-9a-zA-Z-]+)*" ++ ")?".

Definition patternTextOf (Ops : list string) : string :=
  "\A\s*(" ++ Strings.Join Ops "|" ++ ")?\s*(" ++ versionPatternText
  ++ ")\s*\z".

(** [for i, value := range ops { if parts0 == ops[i].Op { operator =
    value.Op; break } }], from [operator == ""]. *)
Fixpoint lookupOperator (ops : list opFunc) (parts0 : string) : string :=
  match ops with
  | [] => EmptyString
  | value :: ops' =>
      if String.eqb parts0 (Op value) then Op value
      else lookupOperator ops' parts0
  end.

End RequirementBase.

(* ================================================================== *)
(** ** Package requirement, revision of src/unnamed/part_001
       ([parse] looks for the operators of [Ops] inside the string) *)

Module RequirementScan.

Import RequirementBase.

Definition Ops : list string := ["!="; ">="; "<="; "~>"; ">"; "<"; "="].

Definition ops : list opFunc :=
  [ mkOpFunc "!=" notEquals; mkOpFunc ">=" gte; mkOpFunc "<=" lte;
    mkOpFunc "~>" tildeGT; mkOpFunc ">" greaterThan;
    mkOpFunc "<" lessThan; mkOpFunc "=" equals ].

Definition pattern : Regexp.regex := patternOf Ops.
Definition patternText : string := patternTextOf Ops.

(** A specifier; its [Version] is never nil in this revision: [parse]
    returns the error of [version.New] instead. *)
Record RequirementSpecifier : Type :=
  mkSpecifier { Operator : string; Version : Version.Version }.

Record Requirement : Type :=
  mkRequirement { requirements : list RequirementSpecifier }.

Definition versionOrEmpty (o : option Version.Version) : Version.Version :=
  match o with
  | Some v => v
  | None => Version.mkVersion EmptyString
  end.

(** The two package-level defaults; [version.New2] succeeds on both
    strings (lemma [defaults_not_nil]). *)
Definition defaultRequirement : RequirementSpecifier :=
  mkSpecifier ">=" (versionOrEmpty (Version.New2 "0")).

Definition defaultPrereleaseRequirement : RequirementSpecifier :=
  mkSpecifier ">=" (versionOrEmpty (Version.New2 "0.a")).

Definition DefaultRequirement : RequirementSpecifier := defaultRequirement.

Definition DefaultPrereleaseRequirement : RequirementSpecifier :=
  defaultPrereleaseRequirement.

(** The first loop of [parse]: the first operator of [Ops] the string
    contains, and the string without its first occurrence. *)
Fixpoint findParts (Ops : list string) (requirement : string) : list string :=
  match Ops with
  | [] => []
  | op :: Ops' =>
      if Strings.Contains requirement op
      then [op; Strings.RemoveFirst requirement op]
      else findParts Ops' requirement
  end.

Definition parse (requirement : string) : result RequirementSpecifier :=
  if negb (Regexp.MatchString pattern requirement) then
    Err ("unable to parse requirement: '" ++ requirement
         ++ "' with regex: " ++ patternText)
  else
    match findParts Ops requirement with
    | [parts0; parts1] =>
        let operator := lookupOperator ops parts0 in
        if String.eqb operator EmptyString then
          Err ("invalid operator '" ++ operator ++ "'")
        else if String.eqb operator ">=" && String.eqb parts1 "0" then
          Ok DefaultRequirement
        else if String.eqb operator ">=" && String.eqb parts1 "0.a" then
          Ok DefaultPrereleaseRequirement
        else
          match Version.New parts1 with
          | Err e => Err e
          | Ok ver => Ok (mkSpecifier operator ver)
          end
    | _ =>
        Err "requirement should be an operator and version (e.g. '> 3.0')"
    end.

Fixpoint newLoop (requirements : list string)
         (reqs : list RequirementSpecifier) : result Requirement :=
  match requirements with
  | [] => Ok (mkRequirement reqs)
  | value :: rest =>
      match parse value with
      | Err e => Err e
      | Ok req => newLoop rest (reqs ++ [req])%list
      end
  end.

Definition New (requirements : list string) : result Requirement :=
  newLoop requirements [].

(** What [Concat] returns: the receiver, or nil; in both cases [r] is the
    state the receiver is left in. *)
Inductive concatResult : Type :=
| ConcatReceiver (r : Requirement)
| ConcatNil (r : Requirement).

(** The inner loop of [Concat] for one string [req]: [registered] is
    what the range still has to visit of the specifiers the receiver had
    when the loop started, [current] the receiver's list.  The boolean is
    false on the early [return nil]. *)
Fixpoint concatInner (req : string)
         (registered current : list RequirementSpecifier)
  : list RequirementSpecifier * bool :=
  match registered with
  | [] => (current, true)
  | registeredReq :: registered' =>
      match parse req with
      | Err _ => (current, false)
      | Ok splitReq =>
          if String.eqb (Operator registeredReq) (Operator splitReq)
             || (Version.Compare (Version splitReq) (Version registeredReq)
                 =? 0)%Z
          then concatInner req registered' current
          else concatInner req registered' (current ++ [splitReq])%list
      end
  end.

Fixpoint concatOuter (requirements : list string)
         (current : list RequirementSpecifier) : concatResult :=
  match requirements with
  | [] => ConcatReceiver (mkRequirement current)
  | req :: rest =>
      match concatInner req current current with
      | (current', true) => concatOuter rest current'
      | (current', false) => ConcatNil (mkRequirement current')
      end
  end.

Definition Concat (r : Requirement) (requirements : list string)
  : concatResult :=
  concatOuter requirements (RequirementScan.requirements r).

Definition HasNone (r : Requirement) : bool :=
  match requirements r with
  | [r0] =>
      String.eqb (Operator r0) (Operator DefaultRequirement)
      && (Version.Compare (Version r0) (Version DefaultPrereleaseRequirement)
          =? 0)%Z
  | _ => false
  end.

Definition Exact (r : Requirement) : bool :=
  match requirements r with
  | [r0] => String.eqb (Operator r0) "="
  | _ => false
  end.

Definition IsSpecific (r : Requirement) : bool :=
  if (1 <? List.length (requirements r))%nat then true
  else
    match requirements r with
    | req :: _ =>
        negb (String.eqb (Operator req) ">")
        && negb (String.eqb (Operator req) ">=")
    | [] => true
    end.

(** [AsList]: each specifier as "<operator> <version>". *)
Definition AsList (r : Requirement) : list string :=
  map (fun req => Operator req ++ " " ++ Version.version (Version req))
      (requirements r).

(** [IsPrerelease] of a set: the loop returns true at the first specifier
    whose version is a prerelease. *)
Fixpoint isPrereleaseLoop (reqs : list RequirementSpecifier) : bool :=
  match reqs with
  | [] => false
  | req :: rest =>
      if Version.IsPrerelease (Version req) then true
      else isPrereleaseLoop rest
  end.

Definition IsPrerelease (r : Requirement) : bool :=
  isPrereleaseLoop (requirements r).

(** The operator functions [equals], [notEquals], [greaterThan],
    [lessThan], [gte] and [lte] of the source; their names carry the
    suffix Func here, the plain names being those of the table entries. *)
Definition equalsFunc (rs : RequirementSpecifier) (v : Version.Version) : bool :=
  (Version.Compare (Version rs) v =? 0)%Z.

Definition notEqualsFunc (rs : RequirementSpecifier) (v : Version.Version)
  : bool :=
  negb (Version.Compare (Version rs) v =? 0)%Z.

Definition greaterThanFunc (rs : RequirementSpecifier) (v : Version.Version)
  : bool :=
  (Version.Compare (Version rs) v =? -1)%Z.

Definition lessThanFunc (rs : RequirementSpecifier) (v : Version.Version)
  : bool :=
  (Version.Compare (Version rs) v =? 1)%Z.

Definition gteFunc (rs : RequirementSpecifier) (v : Version.Version) : bool :=
  (Version.Compare (Version rs) v =? 0)%Z
  || (Version.Compare (Version rs) v =? -1)%Z.

Definition lteFunc (rs : RequirementSpecifier) (v : Version.Version) : bool :=
  (Version.Compare (Version rs) v =? 0)%Z
  || (Version.Compare (Version rs) v =? 1)%Z.

(** [tildeGT]: [r, _ := rs.Version.Bump()] comes first and may panic; its
    error is dropped, so [r] may be nil.  [r.Release().Compare(v)] is only
    evaluated when [gte] holds, and dereferences a nil pointer when [r] or
    its release is nil. *)
Definition tildeGTFunc (rs : RequirementSpecifier) (v : Version.Version)
  : outcome bool :=
  match Version.Bump (Version rs) with
  | Panics msg => Panics msg
  | Returns bumped =>
      if negb (gteFunc rs v) then Returns false
      else
        match bumped with
        | Err _ => Panics "runtime error: invalid memory address or nil pointer dereference"
        | Ok r =>
            match Version.Release r with
            | None => Panics "runtime error: invalid memory address or nil pointer dereference"
            | Some release => Returns (Version.Compare release v =? 1)%Z
            end
        end
  end.

(** The call [value.Func(rs, v)] through the table. *)
Definition callFunc (f : operationFunc) (rs : RequirementSpecifier)
           (v : Version.Version) : outcome bool :=
  match f with
  | equals => Returns (equalsFunc rs v)
  | notEquals => Returns (notEqualsFunc rs v)
  | greaterThan => Returns (greaterThanFunc rs v)
  | lessThan => Returns (lessThanFunc rs v)
  | gte => Returns (gteFunc rs v)
  | lte => Returns (lteFunc rs v)
  | tildeGT => tildeGTFunc rs v
  end.

(** The loop of [IsSatisfiedBy] on a specifier, over the table:
    every entry whose [Op] is the specifier's operator is called, and the
    first one that fails makes the result false. *)
Fixpoint satisfiedLoop (table : list opFunc) (rs : RequirementSpecifier)
         (v : Version.Version) : outcome bool :=
  match table with
  | [] => Returns true
  | value :: table' =>
      if String.eqb (Op value) (Operator rs) then
        match callFunc (Func value) rs v with
        | Panics msg => Panics msg
        | Returns false => Returns false
        | Returns true => satisfiedLoop table' rs v
        end
      else satisfiedLoop table' rs v
  end.

Definition RequirementSpecifier_IsSatisfiedBy (rs : RequirementSpecifier)
           (v : Version.Version) : outcome bool :=
  satisfiedLoop ops rs v.

(** The loop of [IsSatisfiedBy] on a set. *)
Fixpoint isSatisfiedByLoop (reqs : list RequirementSpecifier)
         (v : Version.Version) : outcome bool :=
  match reqs with
  | [] => Returns true
  | requirement :: rest =>
      match RequirementSpecifier_IsSatisfiedBy requirement v with
      | Panics msg => Panics msg
      | Returns false => Returns false
      | Returns true => isSatisfiedByLoop rest v
      end
  end.

Definition IsSatisfiedBy (r : Requirement) (v : Version.Version)
  : outcome bool :=
  isSatisfiedByLoop (requirements r) v.

Definition RequirementSpecifier_ToString (rs : RequirementSpecifier) : string :=
  Operator rs ++ " " ++ Version.version (Version rs).

Definition ToString (r : Requirement) : string :=
  Strings.Join (map RequirementSpecifier_ToString (requirements r)) ", ".

End RequirementScan.

(* ================================================================== *)
(** ** Package requirement, revision of src/requirement/requirement.go
       ([parse] splits the string at its blanks) *)

Module RequirementSplit.

Import RequirementBase.

Definition Ops : list string := ["="; "!="; ">"; "<"; ">="; "<="; "~>"].

Definition ops : list opFunc :=
  [ mkOpFunc "=" equals; mkOpFunc "!=" notEquals;
    mkOpFunc ">" greaterThan; mkOpFunc "<" lessThan; mkOpFunc ">=" gte;
    mkOpFunc "<=" lte; mkOpFunc "~>" tildeGT ].

Definition pattern : Regexp.regex := patternOf Ops.
Definition patternText : string := patternTextOf Ops.

(** A [*version.Version] held by a specifier.  [HasNone] compares such a
    pointer with the one stored in [defaultRequirement], so the model
    keeps where a pointer comes from: one of the two package-level
    defaults, or a call of [version.New2] in [parse], which allocates a
    new version or returns nil. *)
Inductive versionPtr : Type :=
| DefaultVersionPtr
| DefaultPrereleaseVersionPtr
| ParsedVersionPtr (target : option Version.Version).

Definition deref (p : versionPtr) : option Version.Version :=
  match p with
  | DefaultVersionPtr => Version.New2 "0"
  | DefaultPrereleaseVersionPtr => Version.New2 "0.a"
  | ParsedVersionPtr target => target
  end.

(** [p == DefaultRequirement().Version] *)
Definition isDefaultVersionPtr (p : versionPtr) : bool :=
  match p with
  | DefaultVersionPtr => true
  | _ => false
  end.

Record RequirementSpecifier : Type :=
  mkSpecifier { Operator : string; Version : versionPtr }.

Record Requirement : Type :=
  mkRequirement { requirements : list RequirementSpecifier }.

Definition defaultRequirement : RequirementSpecifier :=
  mkSpecifier ">=" DefaultVersionPtr.

Definition defaultPrereleaseRequirement : RequirementSpecifier :=
  mkSpecifier ">=" DefaultPrereleaseVersionPtr.

Definition DefaultRequirement : RequirementSpecifier := defaultRequirement.

Definition DefaultPrereleaseRequirement : RequirementSpecifier :=
  defaultPrereleaseRequirement.

Definition parse (requirement : string) : result RequirementSpecifier :=
  if negb (Regexp.MatchString pattern requirement) then
    Err ("unable to parse requirement: '" ++ requirement
         ++ "' with regex: " ++ patternText)
  else
    match Strings.SplitByte requirement " " with
    | [parts0; parts1] =>
        let operator := lookupOperator ops parts0 in
        if String.eqb operator EmptyString then
          Err ("invalid operator " ++ operator)
        else if String.eqb operator ">=" && String.eqb parts1 "0" then
          Ok DefaultRequirement
        else if String.eqb operator ">=" && String.eqb parts1 "0.a" then
          Ok DefaultPrereleaseRequirement
        else
          Ok (mkSpecifier operator (ParsedVersionPtr (Version.New2 parts1)))
    | _ =>
        Err "requirement should be an operator and version (e.g. '> 3.0')"
    end.

Fixpoint newLoop (requirements : list string)
         (reqs : list RequirementSpecifier) : result Requirement :=
  match requirements with
  | [] => Ok (mkRequirement reqs)
  | value :: rest =>
      match parse value with
      | Err e => Err e
      | Ok req => newLoop rest (reqs ++ [req])%list
      end
  end.

Definition New (requirements : list string) : result Requirement :=
  newLoop requirements [].

(** What [Concat] does: it returns the receiver or nil, or panics when
    [Compare] is called on a nil version; [r] is the state the receiver
    is left in. *)
Inductive concatResult : Type :=
| ConcatReceiver (r : Requirement)
| ConcatNil (r : Requirement)
| ConcatPanics (r : Requirement).

Inductive loopExit : Type :=
| LoopDone
| LoopReturnedNil
| LoopPanicked.

Fixpoint concatInner (req : string)
         (registered current : list RequirementSpecifier)
  : list RequirementSpecifier * loopExit :=
  match registered with
  | [] => (current, LoopDone)
  | registeredReq :: registered' =>
      match parse req with
      | Err _ => (current, LoopReturnedNil)
      | Ok splitReq =>
          if String.eqb (Operator registeredReq) (Operator splitReq)
          then concatInner req registered' current
          else
            match deref (Version splitReq), deref (Version registeredReq) with
            | Some v, Some o =>
                if (Version.Compare v o =? 0)%Z
                then concatInner req registered' current
                else concatInner req registered' (current ++ [splitReq])%list
            | _, _ => (current, LoopPanicked)
            end
      end
  end.

Fixpoint concatOuter (requirements : list string)
         (current : list RequirementSpecifier) : concatResult :=
  match requirements with
  | [] => ConcatReceiver (mkRequirement current)
  | req :: rest =>
      match concatInner req current current with
      | (current', LoopDone) => concatOuter rest current'
      | (current', LoopReturnedNil) => ConcatNil (mkRequirement current')
      | (current', LoopPanicked) => ConcatPanics (mkRequirement current')
      end
  end.

Definition Concat (r : Requirement) (requirements : list string)
  : concatResult :=
  concatOuter requirements (RequirementSplit.requirements r).

Definition HasNone (r : Requirement) : bool :=
  match requirements r with
  | [r0] =>
      String.eqb (Operator r0) (Operator DefaultRequirement)
      && isDefaultVersionPtr (Version r0)
  | _ => false
  end.

Definition IsSpecific (r : Requirement) : bool :=
  if (1 <? List.length (requirements r))%nat then true
  else
    match requirements r with
    | req :: _ =>
        negb (String.eqb (Operator req) ">")
        && negb (String.eqb (Operator req) ">=")
    | [] => true
    end.

End RequirementSplit.

(* ================================================================== *)
(** ** Statements taken from the specification, for comparison *)

Module Specified.

(** IsSpecific as the specification words it, on the operators of the
    set's specifiers: more than one specifier, or a single one whose
    operator is neither ">" nor "<"; the empty set is specific. *)
Definition IsSpecific (operators : list string) : bool :=
  match operators with
  | [] => true
  | [op] => negb (String.eqb op ">") && negb (String.eqb op "<")
  | _ :: _ :: _ => true
  end.

End Specified.

(* ================================================================== *)
(** * Properties *)

(** ** The repository's own test tables, replayed on the embedding *)

Module VersionTests.

Import Version.

Example Test_New :
  New "1" = Ok (mkVersion "1")
  /\ New "1.5-3" = Ok (mkVersion "1.5.pre.3")
  /\ New "2.3-0-0" = Ok (mkVersion "2.3.pre.0.pre.0")
  /\ isCorrect "1." = false
  /\ isCorrect "1.5-" = false.
Proof. vm_compute. repeat split. Qed.

Example Test_CanonicalSegments :
  segments (mkVersion "2.3.pre.0.pre.0") = ["2"; "3"; "pre"; "0"; "pre"; "0"]
  /\ splitSegments (mkVersion "2.3.pre.0.pre.0")
     = (["2"; "3"], ["pre"; "0"; "pre"; "0"])
  /\ canonicalSegments (mkVersion "2.3.pre.0.pre.0")
     = ["2"; "3"; "pre"; "0"; "pre"]
  /\ canonicalSegments (mkVersion "1.5.pre.3") = ["1"; "5"; "pre"; "3"].
Proof. vm_compute. repeat split. Qed.

Example Test_Compare :
  Compare (mkVersion "1.1") (mkVersion "1.0") = 1%Z
  /\ Compare (mkVersion "1.1") (mkVersion "1.2") = (-1)%Z
  /\ Compare (mkVersion "1.1") (mkVersion "1.1") = 0%Z
  /\ Compare (mkVersion "1.1.pre.1.pre.1") (mkVersion "1.1.pre.1.pre.2")
     = (-1)%Z
  /\ Compare (mkVersion "1.1.pre.1.pre.1") (mkVersion "1.0.pre.3.pre.1")
     = 1%Z
  /\ Compare (mkVersion "1.1.pre.1.pre.1") (mkVersion "1.12") = (-1)%Z.
Proof. vm_compute. repeat split. Qed.

Example Test_Bump :
  Bump (mkVersion "1.1.13.4.pre.3") = Returns (Ok (mkVersion "1.1.14"))
  /\ Bump (mkVersion "5.3.1.b.2") = Returns (Ok (mkVersion "5.4")).
Proof. vm_compute. repeat split. Qed.

Example Test_Release :
  Release (mkVersion "1.2.5") = Some (mkVersion "1.2.5")
  /\ Release (mkVersion "1.2.1.pre.2") = Some (mkVersion "1.2.1").
Proof. vm_compute. repeat split. Qed.

Example Test_ApproximateRecommendation :
  ApproximateRecommendation (mkVersion "1.3.1.pre.4") = "~> 1.3.a"
  /\ ApproximateRecommendation (mkVersion "1.3.5.7") = "~> 1.3".
Proof. vm_compute. repeat split. Qed.

End VersionTests.

(** ** The matcher *)

Module RegexpProps.

Import Regexp.

Lemma matchFrom_Void (b : bool) (s : string) : matchFrom b Void s = false.
Proof. revert b. induction s as [|c s IH]; intros b; simpl; auto. Qed.

Lemma matchFrom_Alt (b : bool) (r1 r2 : regex) (s : string) :
  matchFrom b (Alt r1 r2) s = matchFrom b r1 s || matchFrom b r2 s.
Proof.
  revert b r1 r2. induction s as [|c s IH]; intros b r1 r2; simpl; auto.
Qed.

(** The simplifying concatenation matches what the plain one matches. *)
Lemma matchFrom_cat (b : bool) (r1 r2 : regex) (s : string) :
  matchFrom b (cat r1 r2) s = matchFrom b (Cat r1 r2) s.
Proof.
  destruct r1; try reflexivity.
  - simpl cat. rewrite matchFrom_Void.
    destruct s as [|c s]; simpl; [reflexivity|].
    now rewrite matchFrom_Void.
  - simpl cat. destruct s as [|c s]; simpl; [reflexivity|].
    now rewrite matchFrom_Alt, matchFrom_Void.
Qed.

(** A pattern that can match the empty string anywhere may be put in
    front of a match... *)
Lemma matchFrom_Cat_skip_left (b : bool) (r1 r2 : regex) (s : string) :
  nullable b false r1 = true -> nullable b true r1 = true ->
  matchFrom b r2 s = true -> matchFrom b (Cat r1 r2) s = true.
Proof.
  intros H0 H1 H. destruct s as [|c s]; simpl in *.
  - now rewrite H1, H.
  - rewrite H0, matchFrom_Alt, H. apply orb_true_r.
Qed.

(** ... or behind it. *)
Lemma matchFrom_Cat_skip_right (q : regex) :
  (forall b, nullable b true q = true) ->
  forall (s : string) (b : bool) (r : regex),
    matchFrom b r s = true -> matchFrom b (Cat r q) s = true.
Proof.
  intros Hq. induction s as [|c s IH]; intros b r H; simpl in *.
  - now rewrite H, Hq.
  - destruct (nullable b false r).
    + rewrite matchFrom_Alt, matchFrom_cat, (IH _ _ H). reflexivity.
    + rewrite matchFrom_cat. now apply IH.
Qed.

(** A pattern that matches the whole text is found in it. *)
Lemma MatchString_of_full_match (r : regex) (s : string) :
  matchFrom true r s = true -> MatchString r s = true.
Proof.
  intros H. unfold MatchString.
  apply matchFrom_Cat_skip_left; [reflexivity | reflexivity |].
  apply matchFrom_Cat_skip_right; [reflexivity | assumption].
Qed.

(** The iteration of a class reads a text made of bytes of the class. *)
Lemma matchFrom_Star_class (p : ascii -> bool) (rest : regex) :
  (forall b, nullable b true rest = true) ->
  forall (s : string) (b : bool),
    Strings.allBytes p s = true ->
    matchFrom b (Cat (Star (Cls p)) rest) s = true.
Proof.
  intros Hrest. induction s as [|c s IH]; intros b H; simpl in *.
  - apply Hrest.
  - apply andb_prop in H. destruct H as [Hc Hs].
    rewrite Hc. simpl. rewrite matchFrom_Alt, (IH _ Hs). reflexivity.
Qed.

(** A pattern that starts with the byte [c0] is not found in a text
    without that byte. *)
Lemma MatchString_first_byte_absent (c0 : ascii) (rest : regex) :
  forall (s : string) (b : bool),
    Strings.allBytes (fun c => negb (Ascii.eqb c0 c)) s = true ->
    matchFrom b
      (Cat (Star (Cls anyByte)) (Cat (Cat (Lit c0) rest) (Star (Cls anyByte))))
      s = false.
Proof.
  induction s as [|c s IH]; intros b H; simpl in *.
  - reflexivity.
  - apply andb_prop in H. destruct H as [Hc Hs].
    apply negb_true_iff in Hc. rewrite Hc. simpl.
    rewrite matchFrom_Alt, (IH _ Hs), matchFrom_Void. reflexivity.
Qed.

Lemma allBytes_impl (p q : ascii -> bool) (s : string) :
  (forall c, p c = true -> q c = true) ->
  Strings.allBytes p s = true -> Strings.allBytes q s = true.
Proof.
  intros Hpq. induction s as [|c s IH]; simpl; [reflexivity|].
  intros H. apply andb_prop in H. destruct H as [Hc Hs].
  now rewrite (Hpq _ Hc), (IH Hs).
Qed.

(** The bytes [\s] matches are bytes [TrimSpace] removes, and none of them
    is a slash. *)
Lemma space_isSpace (c : ascii) : space c = true -> Strings.isSpace c = true.
Proof.
  destruct c as [[] [] [] [] [] [] [] []]; vm_compute; intros H;
    solve [reflexivity | discriminate H].
Qed.

Lemma space_not_slash (c : ascii) :
  space c = true -> negb (Ascii.eqb "/" c) = true.
Proof.
  destruct c as [[] [] [] [] [] [] [] []]; vm_compute; intros H;
    solve [reflexivity | discriminate H].
Qed.

Lemma TrimSpace_blank (s : string) :
  Strings.allBytes space s = true -> Strings.TrimSpace s = EmptyString.
Proof.
  unfold Strings.TrimSpace. induction s as [|c s IH]; simpl; [reflexivity|].
  intros H. apply andb_prop in H. destruct H as [Hc Hs].
  rewrite (space_isSpace _ Hc). now apply IH.
Qed.

End RegexpProps.

(** ** Package version *)

Module VersionProps.

Import Version.

Lemma Kind_eqb_eq (k1 k2 : Kind) : Kind_eqb k1 k2 = true <-> k1 = k2.
Proof. destruct k1, k2; simpl; split; congruence. Qed.

(** The number of iterations of the loop of [Compare] is the larger of
    the two lengths. *)
Lemma Compare_unfold (v o : Version) :
  Compare v o =
    if String.eqb (version v) (version o)
       || strArraysEqual (canonicalSegments v) (canonicalSegments o)
    then 0%Z
    else compareLoop (canonicalSegments v) (canonicalSegments o) 0
           (Nat.max (List.length (canonicalSegments v))
                    (List.length (canonicalSegments o))).
Proof.
  unfold Compare.
  destruct (String.eqb (version v) (version o)
            || strArraysEqual (canonicalSegments v) (canonicalSegments o));
    [reflexivity|].
  f_equal.
  destruct (Z.ltb_spec (Z.of_nat (List.length (canonicalSegments o)))
                       (Z.of_nat (List.length (canonicalSegments v)))); lia.
Qed.

(** The truncation loop keeps the segments before the LAST segment with a
    letter: every later match re-slices the shared backing array again. *)
Lemma truncateLoop_app (backing rest1 rest2 cur : list string) (i : nat) :
  truncateLoop backing i (rest1 ++ rest2) cur
  = truncateLoop backing (i + List.length rest1) rest2
      (truncateLoop backing i rest1 cur).
Proof.
  revert i cur.
  induction rest1 as [|x rest1 IH]; intros i cur; simpl.
  - now rewrite Nat.add_0_r.
  - rewrite IH. f_equal. lia.
Qed.

Lemma truncateLoop_no_letters (backing rest cur : list string) (i : nat) :
  forallb (fun x => negb (Regexp.MatchString lettersPattern x)) rest = true ->
  truncateLoop backing i rest cur = cur.
Proof.
  revert i cur.
  induction rest as [|x rest IH]; intros i cur H; simpl in *; [reflexivity|].
  apply andb_prop in H. destruct H as [Hx Hr].
  apply negb_true_iff in Hx. rewrite Hx. now apply IH.
Qed.

Lemma truncateSegments_last_letter (before after : list string) (x : string) :
  Regexp.MatchString lettersPattern x = true ->
  forallb (fun y => negb (Regexp.MatchString lettersPattern y)) after = true ->
  truncateSegments (before ++ x :: after) = before.
Proof.
  intros Hx Hafter. unfold truncateSegments.
  rewrite truncateLoop_app. simpl. rewrite Hx.
  rewrite truncateLoop_no_letters by assumption.
  change (0 + List.length before)%nat with (List.length before).
  rewrite firstn_app, Nat.sub_diag, firstn_all. simpl.
  now rewrite app_nil_r.
Qed.

(** C1 (the code against its own documentation).  The four versions are
    valid; [Compare] puts 1.0 above 1.0.b1 and 1.0.a.2 above 0.9, as the
    documented order says, but it puts 1.0.b1 BELOW 1.0.a.2: the two
    letters tie and the next position, 1 against 2, decides.  The order
    [Compare] induces is 1.0, 1.0.a.2, 1.0.b1, 0.9. *)
Theorem Compare_documented_order_fails :
  exists v10 vb1 va2 v09,
    New "1.0" = Ok v10 /\ New "1.0.b1" = Ok vb1
    /\ New "1.0.a.2" = Ok va2 /\ New "0.9" = Ok v09
    /\ canonicalSegments vb1 = ["1"; "b"; "1"]
    /\ canonicalSegments va2 = ["1"; "a"; "2"]
    /\ Compare v10 vb1 = 1%Z
    /\ Compare va2 v09 = 1%Z
    /\ Compare vb1 va2 = (-1)%Z
    /\ Compare va2 vb1 = 1%Z.
Proof.
  exists (mkVersion "1.0"), (mkVersion "1.0.b1"),
         (mkVersion "1.0.a.2"), (mkVersion "0.9").
  vm_compute. repeat split.
Qed.

Lemma isCorrect_blank (s : string) :
  Strings.allBytes Regexp.space s = true -> isCorrect s = true.
Proof.
  intros H. unfold isCorrect.
  apply RegexpProps.MatchString_of_full_match.
  change VersionPatternAnchored
    with (Regexp.Cat Regexp.BeginText
            (Regexp.Cat (Regexp.Star (Regexp.Cls Regexp.space))
               (Regexp.Cat (Regexp.Opt VersionPattern)
                  (Regexp.Cat (Regexp.Star (Regexp.Cls Regexp.space))
                     Regexp.EndText)))).
  apply RegexpProps.matchFrom_Cat_skip_left; [reflexivity | reflexivity |].
  apply RegexpProps.matchFrom_Star_class; [|assumption].
  intros b. reflexivity.
Qed.

Lemma slashedBlankPattern_blank (s : string) :
  Strings.allBytes Regexp.space s = true ->
  Regexp.MatchString slashedBlankPattern s = false.
Proof.
  intros H. unfold Regexp.MatchString.
  change slashedBlankPattern
    with (Regexp.Cat (Regexp.Lit "/")
            (Regexp.Cat Regexp.BeginText
               (Regexp.Cat (Regexp.Star (Regexp.Cls Regexp.space))
                  (Regexp.Cat Regexp.EndText (Regexp.Lit "/"))))).
  apply RegexpProps.MatchString_first_byte_absent.
  revert H. apply RegexpProps.allBytes_impl.
  exact RegexpProps.space_not_slash.
Qed.

(** C2 (the code against its own attempt).  Construction succeeds on the
    empty string and on every string of blanks, but the canonical string
    it gives is the empty string, not 0: the pattern that guards the
    assignment of 0 is written with slashes and matches none of these
    strings, so only [TrimSpace] applies.  The version so built has no
    segment, and [Eql] tells it from the version built from 0. *)
Theorem New_blank_gives_empty_version :
  (forall s : string,
      Strings.allBytes Regexp.space s = true ->
      Regexp.MatchString slashedBlankPattern s = false
      /\ New s = Ok (mkVersion "")
      /\ New s <> Ok (mkVersion "0"))
  /\ segments (mkVersion "") = []
  /\ New "0" = Ok (mkVersion "0")
  /\ Eql (mkVersion "") (mkVersion "0") = false.
Proof.
  split; [|vm_compute; repeat split].
  intros s H.
  assert (HN : New s = Ok (mkVersion "")).
  { unfold New.
    rewrite (isCorrect_blank _ H), (slashedBlankPattern_blank _ H). simpl.
    rewrite (RegexpProps.TrimSpace_blank _ H). reflexivity. }
  split; [now apply slashedBlankPattern_blank|].
  split; [exact HN|]. rewrite HN. discriminate.
Qed.

Lemma New_blank_gives_empty_version_witness :
  New "" = Ok (mkVersion "")
  /\ New "   " = Ok (mkVersion "")
  /\ New (String (ascii_of_nat 9) (String (ascii_of_nat 10) " "))
     = Ok (mkVersion "").
Proof.
  split; [|split];
    apply (proj1 New_blank_gives_empty_version); reflexivity.
Defined.

(** C3.  At a position where both entries are of kind String the loop of
    [Compare] goes on to the next position, whether the two strings are
    equal or not; [Compare] is that loop over the canonical segments
    when the versions are not equal at once; and the valid versions
    1.0.a and 1.0.b, whose canonical segments differ, compare equal. *)
Theorem Compare_letters_tie :
  (forall (l r : list string) (i n : nat),
      extractKind (padded l i) = KindString ->
      extractKind (padded r i) = KindString ->
      padded l i <> padded r i ->
      compareLoop l r i (S n) = compareLoop l r (S i) n)
  /\ (forall v o : Version,
         String.eqb (version v) (version o) = false ->
         strArraysEqual (canonicalSegments v) (canonicalSegments o) = false ->
         Compare v o
         = compareLoop (canonicalSegments v) (canonicalSegments o) 0
             (Nat.max (List.length (canonicalSegments v))
                      (List.length (canonicalSegments o))))
  /\ (exists va vb,
         New "1.0.a" = Ok va /\ New "1.0.b" = Ok vb
         /\ canonicalSegments va = ["1"; "a"]
         /\ canonicalSegments vb = ["1"; "b"]
         /\ Compare va vb = 0%Z /\ Compare vb va = 0%Z).
Proof.
  split; [|split].
  - intros l r i n Hl Hr Hne. simpl.
    destruct (String.eqb_spec (padded l i) (padded r i)) as [E|_];
      [contradiction|].
    rewrite Hl, Hr. reflexivity.
  - intros v o Hv Hs. rewrite Compare_unfold, Hv, Hs. reflexivity.
  - exists (mkVersion "1.0.a"), (mkVersion "1.0.b").
    vm_compute. repeat split.
Qed.

Lemma Compare_letters_tie_witness :
  compareLoop ["1"; "a"] ["1"; "b"] 1 1 = compareLoop ["1"; "a"] ["1"; "b"] 2 0
  /\ Compare (mkVersion "1.0.a") (mkVersion "1.0.b")
     = compareLoop ["1"; "a"] ["1"; "b"] 0 2.
Proof.
  split.
  - apply (proj1 Compare_letters_tie); vm_compute; congruence.
  - apply (proj1 (proj2 Compare_letters_tie)); reflexivity.
Defined.

(** C4.  For the versions built from 1 and 1.0, [Compare] returns 0 and
    [Eql] false; [Eql] holds exactly when the two canonical strings are
    the same string, and then [Compare] returns 0. *)
Theorem Eql_finer_than_Compare :
  (exists v1 v10,
      New "1" = Ok v1 /\ New "1.0" = Ok v10
      /\ Compare v1 v10 = 0%Z /\ Eql v1 v10 = false)
  /\ (forall v o : Version, Eql v o = true <-> version v = version o)
  /\ (forall v o : Version, Eql v o = true -> Compare v o = 0%Z).
Proof.
  split; [|split].
  - exists (mkVersion "1"), (mkVersion "1.0"). vm_compute. repeat split.
  - intros v o. unfold Eql. apply String.eqb_eq.
  - intros v o H. unfold Eql in H. unfold Compare. rewrite H. reflexivity.
Qed.

Lemma Eql_finer_than_Compare_witness :
  Compare (mkVersion "1.0") (mkVersion "1.0") = 0%Z
  /\ version (mkVersion "1.0") = version (mkVersion "1.0").
Proof.
  split.
  - apply (proj2 (proj2 Eql_finer_than_Compare)). reflexivity.
  - apply (proj1 (proj2 Eql_finer_than_Compare)). reflexivity.
Defined.

(** C5 (the code against its own assertion).  1.a.2.b.3 is a valid
    version, and [Bump] panics on it: the truncation loop leaves
    1, a, 2, the last segment is dropped, and [Atoi] rejects a. *)
Theorem Bump_panics_on_valid_version :
  exists v,
    New "1.a.2.b.3" = Ok v
    /\ segments v = ["1"; "a"; "2"; "b"; "3"]
    /\ truncateSegments (segments v) = ["1"; "a"; "2"]
    /\ Bump v = Panics "last element string should contain an int".
Proof.
  exists (mkVersion "1.a.2.b.3"). vm_compute. repeat split.
Qed.

(** [Bump] has two more ways to panic on a valid version: the version
    built from the empty string has no segment to index, and [Atoi]
    rejects a segment that does not fit an int. *)
Lemma Bump_panics_more :
  (exists v, New "" = Ok v
             /\ Bump v = Panics "runtime error: index out of range [-1]")
  /\ (exists v, New "99999999999999999999" = Ok v
                /\ Bump v = Panics "last element string should contain an int").
Proof.
  split.
  - exists (mkVersion ""). vm_compute. split; reflexivity.
  - exists (mkVersion "99999999999999999999"). vm_compute. split; reflexivity.
Qed.

(** What [Release] does in general on a prerelease version: it rebuilds
    the version from the segments before the last one with a letter. *)
Lemma Release_cuts_at_last_letter (v : Version)
      (before after : list string) (x : string) :
  IsPrerelease v = true ->
  segments v = (before ++ x :: after)%list ->
  Regexp.MatchString lettersPattern x = true ->
  forallb (fun y => negb (Regexp.MatchString lettersPattern y)) after = true ->
  Release v = New2 (Strings.Join before ".").
Proof.
  intros Hp Hs Hx Hafter. unfold Release, New2.
  rewrite Hp, Hs. simpl negb. cbv iota.
  now rewrite (truncateSegments_last_letter _ _ _ Hx Hafter).
Qed.

(** C6 (the code against its own documentation).  1.a.2.b.3 is a valid
    prerelease version, and its [Release] is 1.a.2, cut before the LAST
    segment with a letter: it still has the segment a and is still a
    prerelease. *)
Theorem Release_keeps_letter_segment :
  exists v r,
    New "1.a.2.b.3" = Ok v
    /\ IsPrerelease v = true
    /\ Release v = Some r
    /\ version r = "1.a.2"
    /\ segments r = ["1"; "a"; "2"]
    /\ IsPrerelease r = true.
Proof.
  exists (mkVersion "1.a.2.b.3"), (mkVersion "1.a.2").
  vm_compute. repeat split.
Qed.

End VersionProps.

(** ** Package requirement *)

Module RequirementProps.

Lemma defaults_not_nil :
  Version.New2 "0" = Some (Version.mkVersion "0")
  /\ Version.New2 "0.a" = Some (Version.mkVersion "0.a").
Proof. vm_compute. split; reflexivity. Qed.

Lemma findParts_none (Ops : list string) (requirement : string) :
  forallb (fun op => negb (Strings.Contains requirement op)) Ops = true ->
  RequirementScan.findParts Ops requirement = [].
Proof.
  induction Ops as [|op Ops IH]; simpl; intros H; [reflexivity|].
  apply andb_prop in H. destruct H as [Hop Hrest].
  apply negb_true_iff in Hop. rewrite Hop. now apply IH.
Qed.

(** In the revision of part_001 a string that contains none of the
    operators is rejected, whatever else it is. *)
Lemma parse_without_operator_fails (requirement : string) :
  forallb (fun op => negb (Strings.Contains requirement op))
          RequirementScan.Ops = true ->
  exists e, RequirementScan.parse requirement = Err e.
Proof.
  intros H. unfold RequirementScan.parse.
  destruct (negb (Regexp.MatchString RequirementScan.pattern requirement));
    [eexists; reflexivity|].
  rewrite (findParts_none _ _ H). eexists; reflexivity.
Qed.

(** C7 (the code against its own documentation).  The bare version
    1.3.5 is a valid version and matches the requirement pattern of both
    revisions, whose operator group is optional; both revisions of
    [parse] then reject it, since neither finds an operator and a
    version in it. *)
Theorem parse_rejects_bare_version :
  Version.New "1.3.5" = Ok (Version.mkVersion "1.3.5")
  /\ Regexp.MatchString RequirementScan.pattern "1.3.5" = true
  /\ Regexp.MatchString RequirementSplit.pattern "1.3.5" = true
  /\ RequirementScan.parse "1.3.5"
     = Err "requirement should be an operator and version (e.g. '> 3.0')"
  /\ RequirementSplit.parse "1.3.5"
     = Err "requirement should be an operator and version (e.g. '> 3.0')"
  /\ RequirementScan.parse "= 1.3.5"
     = Ok (RequirementScan.mkSpecifier "=" (Version.mkVersion "1.3.5")).
Proof. vm_compute. repeat split. Qed.

(** In the revision of part_001, [HasNone] holds exactly of the sets that
    have one specifier, with operator ">=" and a version that [Compare]
    finds equal to the version 0.a of the default prerelease
    requirement. *)
Lemma HasNone_iff :
  Version.New "0.a" = Ok (Version.mkVersion "0.a")
  /\ forall r : RequirementScan.Requirement,
      RequirementScan.HasNone r = true
      <-> exists sp,
          RequirementScan.requirements r = [sp]
          /\ RequirementScan.Operator sp = ">="
          /\ Version.Compare (RequirementScan.Version sp)
               (Version.mkVersion "0.a") = 0%Z.
Proof.
  split; [vm_compute; reflexivity|].
  intros [reqs]. unfold RequirementScan.HasNone. simpl.
  change (RequirementScan.Version RequirementScan.DefaultPrereleaseRequirement)
    with (Version.mkVersion "0.a").
  change (RequirementScan.Operator RequirementScan.DefaultRequirement)
    with ">=".
  destruct reqs as [|r0 [|r1 rest]].
  - split; [discriminate|]. intros (sp & H & _). discriminate.
  - rewrite andb_true_iff, String.eqb_eq, Z.eqb_eq. split.
    + intros [Ho Hc]. exists r0. auto.
    + intros (sp & H & Ho & Hc). injection H as <-. auto.
  - split; [discriminate|]. intros (sp & H & _). discriminate.
Qed.

Lemma HasNone_iff_witness :
  RequirementScan.HasNone
    (RequirementScan.mkRequirement
       [RequirementScan.mkSpecifier ">=" (Version.mkVersion "0.a")]) = true.
Proof.
  apply (proj2 HasNone_iff).
  exists (RequirementScan.mkSpecifier ">=" (Version.mkVersion "0.a")).
  repeat split.
Defined.

(** The revision of src/requirement/requirement.go tests something else:
    that the version of the single specifier IS the version object of
    the default requirement.  The set parsed from ">= 0.a" has one
    specifier, with operator ">=" and the version 0.a, and [HasNone] is
    false of it; it is true of the set parsed from ">= 0". *)
Lemma HasNone_split_revision :
  (forall r : RequirementSplit.Requirement,
      RequirementSplit.HasNone r = true
      <-> exists sp,
          RequirementSplit.requirements r = [sp]
          /\ RequirementSplit.Operator sp = ">="
          /\ RequirementSplit.Version sp = RequirementSplit.DefaultVersionPtr)
  /\ (exists r,
         RequirementSplit.New [">= 0.a"] = Ok r
         /\ RequirementSplit.HasNone r = false)
  /\ (exists r,
         RequirementSplit.New [">= 0"] = Ok r
         /\ RequirementSplit.HasNone r = true).
Proof.
  split; [|split].
  - intros [reqs]. unfold RequirementSplit.HasNone. simpl.
    change (RequirementSplit.Operator RequirementSplit.DefaultRequirement)
      with ">=".
    destruct reqs as [|r0 [|r1 rest]].
    + split; [discriminate|]. intros (sp & H & _). discriminate.
    + rewrite andb_true_iff, String.eqb_eq. split.
      * intros [Ho Hp]. exists r0. repeat split; auto.
        destruct (RequirementSplit.Version r0); simpl in Hp;
          congruence.
      * intros (sp & H & Ho & Hp). injection H as <-.
        rewrite Hp. auto.
    + split; [discriminate|]. intros (sp & H & _). discriminate.
  - eexists. vm_compute. split; reflexivity.
  - eexists. vm_compute. split; reflexivity.
Qed.

(** C8, as the specification states it, fails on the revision of
    src/requirement/requirement.go.  The set parsed from ">= 0.a" has
    exactly one specifier, with operator ">=" and a version that [Compare]
    finds equal to 0.a, and [HasNone] is false of it.  The set parsed from
    ">= 0" has exactly one specifier, whose version [Compare] does not
    find equal to 0.a, and [HasNone] is true of it. *)
Lemma HasNone_as_specified_fails :
  exists r1 r2,
    RequirementSplit.New [">= 0.a"] = Ok r1
    /\ RequirementSplit.New [">= 0"] = Ok r2
    /\ RequirementSplit.HasNone r1 = false
    /\ (exists sp v,
           RequirementSplit.requirements r1 = [sp]
           /\ RequirementSplit.Operator sp = ">="
           /\ RequirementSplit.deref (RequirementSplit.Version sp) = Some v
           /\ Version.Compare v (Version.mkVersion "0.a") = 0%Z)
    /\ RequirementSplit.HasNone r2 = true
    /\ (exists sp v,
           RequirementSplit.requirements r2 = [sp]
           /\ RequirementSplit.Operator sp = ">="
           /\ RequirementSplit.deref (RequirementSplit.Version sp) = Some v
           /\ Version.Compare v (Version.mkVersion "0.a") = 1%Z).
Proof.
  exists (RequirementSplit.mkRequirement
            [RequirementSplit.DefaultPrereleaseRequirement]),
         (RequirementSplit.mkRequirement
            [RequirementSplit.DefaultRequirement]).
  split; [vm_compute; reflexivity|].
  split; [vm_compute; reflexivity|].
  split; [reflexivity|].
  split.
  - exists RequirementSplit.DefaultPrereleaseRequirement,
           (Version.mkVersion "0.a").
    vm_compute. repeat split.
  - split; [reflexivity|].
    exists RequirementSplit.DefaultRequirement, (Version.mkVersion "0").
    vm_compute. repeat split.
Qed.

(** C8, amended.  In the revision of part_001, [HasNone] holds exactly of
    the sets that have one specifier, with operator ">=" and a version
    that [Compare] finds equal to the version 0.a of the default
    prerelease requirement.  In the revision of
    src/requirement/requirement.go, [HasNone] holds exactly of the sets
    that have one specifier, with operator ">=" and, as its version, the
    very version object of the default requirement ">= 0"; that object
    holds the version 0, and it is the one [parse] stores for the string
    ">= 0". *)
Theorem HasNone_by_revision :
  Version.New "0.a" = Ok (Version.mkVersion "0.a")
  /\ (forall r : RequirementScan.Requirement,
         RequirementScan.HasNone r = true
         <-> exists sp,
             RequirementScan.requirements r = [sp]
             /\ RequirementScan.Operator sp = ">="
             /\ Version.Compare (RequirementScan.Version sp)
                  (Version.mkVersion "0.a") = 0%Z)
  /\ (forall r : RequirementSplit.Requirement,
         RequirementSplit.HasNone r = true
         <-> exists sp,
             RequirementSplit.requirements r = [sp]
             /\ RequirementSplit.Operator sp = ">="
             /\ RequirementSplit.Version sp = RequirementSplit.DefaultVersionPtr)
  /\ RequirementSplit.deref RequirementSplit.DefaultVersionPtr
     = Some (Version.mkVersion "0")
  /\ RequirementSplit.parse ">= 0"
     = Ok (RequirementSplit.mkSpecifier ">=" RequirementSplit.DefaultVersionPtr).
Proof.
  split; [exact (proj1 HasNone_iff)|].
  split; [exact (proj2 HasNone_iff)|].
  split; [exact (proj1 HasNone_split_revision)|].
  split; vm_compute; reflexivity.
Qed.

Lemma HasNone_by_revision_witness :
  RequirementScan.HasNone
    (RequirementScan.mkRequirement
       [RequirementScan.mkSpecifier ">=" (Version.mkVersion "0.b")]) = true
  /\ RequirementSplit.HasNone
       (RequirementSplit.mkRequirement
          [RequirementSplit.mkSpecifier ">=" RequirementSplit.DefaultVersionPtr])
     = true.
Proof.
  split.
  - apply (proj1 (proj2 HasNone_by_revision)).
    exists (RequirementScan.mkSpecifier ">=" (Version.mkVersion "0.b")).
    repeat split.
  - apply (proj1 (proj2 (proj2 HasNone_by_revision))).
    exists (RequirementSplit.mkSpecifier ">=" RequirementSplit.DefaultVersionPtr).
    repeat split.
Defined.

(** C9, as the specification states it, fails: the set parsed from
    "< 2.0" has a single specifier with operator "<", and [IsSpecific]
    is true of it; the set parsed from ">= 2.0" has a single specifier
    whose operator is neither ">" nor "<", and [IsSpecific] is false of
    it. *)
Lemma IsSpecific_as_specified_fails :
  exists r1 r2,
    RequirementScan.New ["< 2.0"] = Ok r1
    /\ RequirementScan.New [">= 2.0"] = Ok r2
    /\ RequirementScan.IsSpecific r1 = true
    /\ Specified.IsSpecific
         (map RequirementScan.Operator (RequirementScan.requirements r1))
       = false
    /\ RequirementScan.IsSpecific r2 = false
    /\ Specified.IsSpecific
         (map RequirementScan.Operator (RequirementScan.requirements r2))
       = true.
Proof.
  do 2 eexists. vm_compute. repeat split.
Qed.

(** C9, amended.  In both revisions [IsSpecific] holds exactly when the
    set has more than one specifier, or has none, or has a single one
    whose operator is neither ">" nor ">=". *)
Theorem IsSpecific_iff :
  (forall r : RequirementScan.Requirement,
      RequirementScan.IsSpecific r = true
      <-> (1 < List.length (RequirementScan.requirements r))%nat
          \/ RequirementScan.requirements r = []
          \/ exists sp,
              RequirementScan.requirements r = [sp]
              /\ RequirementScan.Operator sp <> ">"
              /\ RequirementScan.Operator sp <> ">=")
  /\ (forall r : RequirementSplit.Requirement,
         RequirementSplit.IsSpecific r = true
         <-> (1 < List.length (RequirementSplit.requirements r))%nat
             \/ RequirementSplit.requirements r = []
             \/ exists sp,
                 RequirementSplit.requirements r = [sp]
                 /\ RequirementSplit.Operator sp <> ">"
                 /\ RequirementSplit.Operator sp <> ">=").
Proof.
  split.
  - intros [reqs]. unfold RequirementScan.IsSpecific. simpl.
    destruct reqs as [|r0 [|r1 rest]]; simpl.
    + split; [auto|reflexivity].
    + rewrite andb_true_iff, !negb_true_iff, !String.eqb_neq. split.
      * intros [H1 H2]. right; right. exists r0. auto.
      * intros [H|[H|(sp & H & H1 & H2)]];
          [lia | discriminate | injection H as <-; auto].
    + split; [intros _; left; lia | reflexivity].
  - intros [reqs]. unfold RequirementSplit.IsSpecific. simpl.
    destruct reqs as [|r0 [|r1 rest]]; simpl.
    + split; [auto|reflexivity].
    + rewrite andb_true_iff, !negb_true_iff, !String.eqb_neq. split.
      * intros [H1 H2]. right; right. exists r0. auto.
      * intros [H|[H|(sp & H & H1 & H2)]];
          [lia | discriminate | injection H as <-; auto].
    + split; [intros _; left; lia | reflexivity].
Qed.

Lemma IsSpecific_iff_witness :
  RequirementScan.IsSpecific
    (RequirementScan.mkRequirement
       [RequirementScan.mkSpecifier "<" (Version.mkVersion "2.0")]) = true
  /\ RequirementSplit.IsSpecific (RequirementSplit.mkRequirement []) = true.
Proof.
  split.
  - apply (proj1 IsSpecific_iff). right; right.
    exists (RequirementScan.mkSpecifier "<" (Version.mkVersion "2.0")).
    repeat split; simpl; congruence.
  - apply (proj2 IsSpecific_iff). right; left. reflexivity.
Defined.

(** C10.  In both revisions [Concat] on a set without specifiers returns
    the receiver, still without specifiers, whatever the strings are:
    the inner loop ranges over the specifiers the set has, and [parse]
    is only called inside it. *)
Theorem Concat_empty_set :
  (forall (r : RequirementScan.Requirement) (requirements : list string),
      RequirementScan.requirements r = [] ->
      RequirementScan.Concat r requirements = RequirementScan.ConcatReceiver r
      /\ RequirementScan.Concat r requirements
         = RequirementScan.ConcatReceiver (RequirementScan.mkRequirement []))
  /\ (forall (r : RequirementSplit.Requirement) (requirements : list string),
         RequirementSplit.requirements r = [] ->
         RequirementSplit.Concat r requirements
         = RequirementSplit.ConcatReceiver r
         /\ RequirementSplit.Concat r requirements
            = RequirementSplit.ConcatReceiver
                (RequirementSplit.mkRequirement [])).
Proof.
  split.
  - intros [reqs] requirements H. simpl in H. subst reqs.
    unfold RequirementScan.Concat. simpl.
    induction requirements as [|req rest IH]; simpl; auto.
  - intros [reqs] requirements H. simpl in H. subst reqs.
    unfold RequirementSplit.Concat. simpl.
    induction requirements as [|req rest IH]; simpl; auto.
Qed.

Lemma Concat_empty_set_witness :
  RequirementScan.Concat (RequirementScan.mkRequirement [])
    ["not a requirement"; "> 1.0"; "1."]
  = RequirementScan.ConcatReceiver (RequirementScan.mkRequirement [])
  /\ RequirementSplit.Concat (RequirementSplit.mkRequirement [])
       ["not a requirement"; "> 1.0"; "1."]
     = RequirementSplit.ConcatReceiver (RequirementSplit.mkRequirement []).
Proof.
  split.
  - apply (proj1 Concat_empty_set). reflexivity.
  - apply (proj2 Concat_empty_set). reflexivity.
Defined.

(** The strings of the witness are rejected by [parse] and accepted by
    it in turn; on a set that has a specifier the first one makes
    [Concat] return nil. *)
Lemma Concat_nonempty_set_malformed :
  exists r,
    RequirementScan.New ["> 1.0"] = Ok r
    /\ RequirementScan.Concat r ["not a requirement"]
       = RequirementScan.ConcatNil r.
Proof.
  exists (RequirementScan.mkRequirement
            [RequirementScan.mkSpecifier ">" (Version.mkVersion "1.0")]).
  vm_compute. split; reflexivity.
Qed.

End RequirementProps.

(* ================================================================== *)
(** * Further properties of the code *)

(** ** The matcher, continued *)

Module RegexpExtra.

Import Regexp.

Lemma matchFrom_Star_any (s : string) (b : bool) :
  matchFrom b (Star (Cls anyByte)) s = true.
Proof.
  revert b. induction s as [|c s IH]; intros b; simpl; [reflexivity|].
  apply IH.
Qed.

(** Looking for one byte of a class, or for a run of them, is looking for
    a byte of the class. *)
Lemma MatchString_class (p : ascii -> bool) (s : string) :
  MatchString (Cls p) s = Strings.someByte p s.
Proof.
  unfold MatchString. generalize true.
  induction s as [|c s IH]; intros b; simpl; [reflexivity|].
  rewrite RegexpProps.matchFrom_Alt, IH.
  destruct (p c); simpl.
  - rewrite matchFrom_Star_any. apply orb_true_r.
  - rewrite RegexpProps.matchFrom_Void. apply orb_false_r.
Qed.

Lemma MatchString_plus_class (p : ascii -> bool) (s : string) :
  MatchString (Plus (Cls p)) s = Strings.someByte p s.
Proof.
  unfold MatchString, Plus. generalize true.
  induction s as [|c s IH]; intros b; simpl; [reflexivity|].
  rewrite RegexpProps.matchFrom_Alt, IH.
  destruct (p c); simpl.
  - rewrite RegexpProps.matchFrom_Cat_skip_left;
      [apply orb_true_r | reflexivity | reflexivity | apply matchFrom_Star_any].
  - rewrite RegexpProps.matchFrom_Void. apply orb_false_r.
Qed.

(** Past the first byte of the text nothing that starts with [\A] matches. *)
Lemma matchFrom_BeginText_late (r q : regex) (s : string) :
  matchFrom false (Cat (Cat BeginText r) q) s = false.
Proof.
  destruct s as [|c s]; simpl; [reflexivity|].
  apply RegexpProps.matchFrom_Void.
Qed.

(** A pattern made of a byte followed by [\A] is found in no text. *)
Lemma MatchString_byte_then_BeginText (c0 : ascii) (r : regex) (s : string) :
  MatchString (Cat (Lit c0) (Cat BeginText r)) s = false.
Proof.
  unfold MatchString. generalize true.
  induction s as [|c s IH]; intros b; simpl; [reflexivity|].
  rewrite RegexpProps.matchFrom_Alt, IH. simpl.
  destruct (Ascii.eqb c0 c); simpl.
  - apply matchFrom_BeginText_late.
  - apply RegexpProps.matchFrom_Void.
Qed.

Lemma digit_not_letter (c : ascii) : digit c = true -> letter c = false.
Proof.
  destruct c as [[] [] [] [] [] [] [] []]; vm_compute; intros H;
    solve [reflexivity | discriminate H].
Qed.

End RegexpExtra.

(** ** Package version, continued *)

Module VersionExtra.

Import Version.

Lemma someByte_app (p : ascii -> bool) (s t : string) :
  Strings.someByte p (s ++ t) = Strings.someByte p s || Strings.someByte p t.
Proof.
  induction s as [|c s IH]; simpl; [reflexivity|].
  now rewrite IH, orb_assoc.
Qed.

Lemma ReplaceAllByte_no_old (s new : string) (old : ascii) :
  Strings.someByte (Ascii.eqb old) new = false ->
  Strings.someByte (Ascii.eqb old) (Strings.ReplaceAllByte s old new) = false.
Proof.
  intros Hnew. induction s as [|c s IH]; simpl; [reflexivity|].
  destruct (Ascii.eqb_spec c old) as [E|N].
  - now rewrite someByte_app, Hnew, IH.
  - simpl. rewrite IH.
    destruct (Ascii.eqb_spec old c); [congruence | reflexivity].
Qed.

(** X1.  The canonical string of a version [New] accepts is always the
    input with its outer blanks removed and each dash rewritten to .pre.:
    the pattern that guards the assignment of 0 matches no string at all.
    So the canonical string never has a dash. *)
Theorem New_canonical_string (s : string) (v : Version) :
  New s = Ok v ->
  Regexp.MatchString slashedBlankPattern s = false
  /\ version v = Strings.ReplaceAllByte (Strings.TrimSpace s) "-" ".pre."
  /\ Strings.someByte (Ascii.eqb "-") (version v) = false.
Proof.
  intros H.
  assert (Hs : Regexp.MatchString slashedBlankPattern s = false)
    by apply RegexpExtra.MatchString_byte_then_BeginText.
  unfold New in H. rewrite Hs in H.
  destruct (negb (isCorrect s)); [discriminate|].
  injection H as <-. simpl.
  repeat split; [assumption|].
  now apply ReplaceAllByte_no_old.
Qed.

Lemma New_canonical_string_witness :
  version (mkVersion "1.5.pre.3")
  = Strings.ReplaceAllByte (Strings.TrimSpace " 1.5-3 ") "-" ".pre.".
Proof.
  apply (New_canonical_string " 1.5-3 " (mkVersion "1.5.pre.3")).
  reflexivity.
Defined.

(** [New] fails exactly on the strings the anchored pattern rejects, and
    its message carries the string. *)
Lemma New_error (s : string) :
  isCorrect s = false ->
  New s = Err ("malformed version number string: '" ++ s ++ "'").
Proof. intros H. unfold New. now rewrite H. Qed.

Lemma findAllRuns_letters (s : string) :
  existsb (Strings.someByte Regexp.letter) (findAllRuns s)
  = Strings.someByte Regexp.letter s.
Proof.
  induction s as [|c s IH]; [reflexivity|].
  cbn [findAllRuns Strings.someByte].
  destruct (Regexp.digit c) eqn:Hd.
  - rewrite (RegexpExtra.digit_not_letter _ Hd). cbn [orb].
    rewrite <- IH.
    destruct s as [|d t]; [simpl; now rewrite (RegexpExtra.digit_not_letter _ Hd)|].
    destruct (findAllRuns (String d t)) as [|seg more];
      [simpl; now rewrite (RegexpExtra.digit_not_letter _ Hd)|].
    destruct (Regexp.digit d); simpl;
      now rewrite (RegexpExtra.digit_not_letter _ Hd).
  - destruct (Regexp.letter c) eqn:Hl; [|exact IH].
    cbn [orb].
    destruct s as [|d t]; [simpl; now rewrite Hl|].
    destruct (findAllRuns (String d t)) as [|seg more];
      [simpl; now rewrite Hl|].
    destruct (Regexp.letter d); simpl; now rewrite Hl.
Qed.

(** X2.  A version is a prerelease exactly when its canonical string has
    a letter, which is exactly when one of its segments is of kind
    String; and a string is of kind String exactly when it has a
    letter. *)
Theorem IsPrerelease_iff_letter_segment :
  (forall v : Version,
      IsPrerelease v = Strings.someByte Regexp.letter (version v))
  /\ (forall s : string,
         extractKind s = KindString <-> Strings.someByte Regexp.letter s = true)
  /\ (forall v : Version,
         IsPrerelease v
         = existsb (fun seg => Kind_eqb (extractKind seg) KindString)
             (segments v)).
Proof.
  assert (HK : forall s, Kind_eqb (extractKind s) KindString
                         = Strings.someByte Regexp.letter s).
  { intros s. unfold extractKind, lettersPattern.
    rewrite RegexpExtra.MatchString_plus_class.
    now destruct (Strings.someByte Regexp.letter s). }
  split; [|split].
  - intros v. apply RegexpExtra.MatchString_class.
  - intros s. rewrite <- HK. symmetry. apply VersionProps.Kind_eqb_eq.
  - intros v. unfold IsPrerelease, letterPattern, segments.
    rewrite RegexpExtra.MatchString_class, <- findAllRuns_letters.
    induction (findAllRuns (version v)) as [|seg segs IHs];
      [reflexivity|].
    simpl. now rewrite HK, IHs.
Qed.

Lemma IsPrerelease_iff_letter_segment_witness :
  extractKind "pre" = KindString.
Proof.
  apply (proj1 (proj2 IsPrerelease_iff_letter_segment)). reflexivity.
Defined.

Lemma findAllRuns_head_digit (d : ascii) (t : string) :
  Regexp.digit d = true ->
  exists seg more, findAllRuns (String d t) = String d seg :: more.
Proof.
  intros H. cbn [findAllRuns]. rewrite H.
  destruct t as [|e t']; [eauto|].
  destruct (findAllRuns (String e t')) as [|seg more]; [eauto|].
  destruct (Regexp.digit e); eauto.
Qed.

Lemma findAllRuns_head_letter (d : ascii) (t : string) :
  Regexp.digit d = false -> Regexp.letter d = true ->
  exists seg more, findAllRuns (String d t) = String d seg :: more.
Proof.
  intros Hd H. cbn [findAllRuns]. rewrite Hd, H.
  destruct t as [|e t']; [eauto|].
  destruct (findAllRuns (String e t')) as [|seg more]; [eauto|].
  destruct (Regexp.letter e); eauto.
Qed.

Lemma findAllRuns_well_formed (s : string) :
  Forall wellFormedSegment (findAllRuns s).
Proof.
  induction s as [|c s IH]; [constructor|].
  cbn [findAllRuns].
  assert (Hone : forall p, p c = true ->
                 Strings.allBytes p (String c EmptyString) = true)
    by (intros p Hp; simpl; now rewrite Hp).
  destruct (Regexp.digit c) eqn:Hd.
  - assert (Hsingle : wellFormedSegment (String c EmptyString))
      by (split; [discriminate | left; now apply Hone]).
    destruct s as [|d t]; [constructor; assumption|].
    destruct (findAllRuns (String d t)) as [|seg more] eqn:Hruns;
      [constructor; assumption|].
    destruct (Regexp.digit d) eqn:Hdd; [|constructor; assumption].
    destruct (findAllRuns_head_digit d t Hdd) as (seg' & more' & E).
    rewrite Hruns in E. injection E as -> ->.
    inversion IH as [|x l [_ Hseg] Hmore]; subst.
    constructor; [|assumption].
    split; [discriminate|]. left.
    destruct Hseg as [Hseg|Hseg].
    + simpl in *. now rewrite Hd.
    + simpl in Hseg. rewrite (RegexpExtra.digit_not_letter _ Hdd) in Hseg.
      discriminate.
  - destruct (Regexp.letter c) eqn:Hl; [|exact IH].
    assert (Hsingle : wellFormedSegment (String c EmptyString))
      by (split; [discriminate | right; now apply Hone]).
    destruct s as [|d t]; [constructor; assumption|].
    destruct (findAllRuns (String d t)) as [|seg more] eqn:Hruns;
      [constructor; assumption|].
    destruct (Regexp.letter d) eqn:Hld; [|constructor; assumption].
    assert (Hdd : Regexp.digit d = false).
    { destruct (Regexp.digit d) eqn:E; [|reflexivity].
      rewrite (RegexpExtra.digit_not_letter _ E) in Hld. discriminate. }
    destruct (findAllRuns_head_letter d t Hdd Hld) as (seg' & more' & E).
    rewrite Hruns in E. injection E as -> ->.
    inversion IH as [|x l [_ Hseg] Hmore]; subst.
    constructor; [|assumption].
    split; [discriminate|]. right.
    destruct Hseg as [Hseg|Hseg].
    + simpl in Hseg. rewrite Hdd in Hseg. discriminate.
    + simpl in *. now rewrite Hl.
Qed.

(** X3.  Every segment of a version is a non-empty run of digits or a
    non-empty run of letters, whatever the canonical string is. *)
Theorem segments_well_formed (v : Version) :
  Forall wellFormedSegment (segments v).
Proof. apply findAllRuns_well_formed. Qed.

Lemma deleteLoop_past (arr : list string) (i elem : nat) :
  (elem < i)%nat -> deleteLoop arr i elem = arr.
Proof.
  revert i. induction arr as [|v arr IH]; intros i H; simpl; [reflexivity|].
  destruct (Nat.eqb_spec i elem); [lia|].
  rewrite IH by lia. reflexivity.
Qed.

Lemma deleteLoop_spec (arr : list string) (i elem : nat) :
  (i <= elem)%nat ->
  deleteLoop arr i elem
  = (firstn (elem - i) arr ++ skipn (S (elem - i)) arr)%list.
Proof.
  revert i. induction arr as [|v arr IH]; intros i H.
  - simpl. now rewrite firstn_nil.
  - cbn [deleteLoop]. destruct (Nat.eqb_spec i elem) as [E|N].
    + subst. rewrite Nat.sub_diag. simpl. apply deleteLoop_past. lia.
    + rewrite IH by lia.
      replace (elem - i)%nat with (S (elem - S i)) by lia. reflexivity.
Qed.

(** X4.  [deleteArrayElement] returns the slice without its element at
    index [elem]; with an index past the end it returns the slice
    unchanged, and never fails. *)
Theorem deleteArrayElement_spec (arr : list string) (elem : nat) :
  deleteArrayElement arr elem = (firstn elem arr ++ skipn (S elem) arr)%list
  /\ ((elem < List.length arr)%nat ->
      S (List.length (deleteArrayElement arr elem)) = List.length arr)
  /\ ((List.length arr <= elem)%nat -> deleteArrayElement arr elem = arr).
Proof.
  assert (E : deleteArrayElement arr elem
              = (firstn elem arr ++ skipn (S elem) arr)%list).
  { unfold deleteArrayElement. destruct arr as [|v arr].
    - now rewrite firstn_nil.
    - rewrite deleteLoop_spec by lia. now rewrite Nat.sub_0_r. }
  split; [exact E|]. rewrite E. split; intros H.
  - rewrite length_app, length_firstn, length_skipn. lia.
  - rewrite firstn_all2 by lia. rewrite skipn_all2 by lia.
    apply app_nil_r.
Qed.

Lemma deleteArrayElement_spec_witness :
  S (List.length (deleteArrayElement ["a"; "b"; "c"] 1)) = 3%nat
  /\ deleteArrayElement ["a"; "b"; "c"] 5 = ["a"; "b"; "c"].
Proof.
  split.
  - apply (proj1 (proj2 (deleteArrayElement_spec ["a"; "b"; "c"] 1))).
    simpl. lia.
  - apply (proj2 (proj2 (deleteArrayElement_spec ["a"; "b"; "c"] 5))).
    simpl. lia.
Defined.

Lemma strArraysEqualLoop_spec (sa1 sa2 : list string) (eq : bool) :
  List.length sa1 = List.length sa2 ->
  strArraysEqualLoop sa1 sa2 eq = true <-> eq = true /\ sa1 = sa2.
Proof.
  revert sa2 eq. induction sa1 as [|v sa1 IH]; intros [|w sa2] eq H;
    simpl in *; try discriminate.
  - intuition.
  - injection H as H. rewrite (IH _ _ H).
    destruct (String.eqb_spec v w) as [E|N].
    + subst. intuition congruence.
    + intuition congruence.
Qed.

Lemma strArraysEqual_true_iff (sa1 sa2 : list string) :
  strArraysEqual sa1 sa2 = true <-> sa1 = sa2.
Proof.
  unfold strArraysEqual.
  destruct (Nat.eqb_spec (List.length sa1) (List.length sa2)) as [E|N]; simpl.
  - rewrite (strArraysEqualLoop_spec _ _ _ E). intuition.
  - split; [discriminate|]. intros ->. contradiction.
Qed.

(** X5.  [strArraysEqual] decides equality of two slices of strings:
    it is true exactly when they have the same length and the same string
    at every index, also when an early index differs and a later one
    agrees. *)
Theorem strArraysEqual_iff (sa1 sa2 : list string) :
  strArraysEqual sa1 sa2 = true <-> sa1 = sa2.
Proof. apply strArraysEqual_true_iff. Qed.

Lemma strArraysEqual_iff_witness :
  strArraysEqual ["1"; "a"] ["1"; "a"] = true.
Proof. apply (proj2 (strArraysEqual_iff ["1"; "a"] ["1"; "a"])). reflexivity. Defined.

Lemma compareLoop_range (n : nat) (l r : list string) (i : nat) :
  compareLoop l r i n = (-1)%Z \/ compareLoop l r i n = 0%Z
  \/ compareLoop l r i n = 1%Z.
Proof.
  revert i. induction n as [|n IH]; intros i; cbn [compareLoop]; [auto|].
  destruct (String.eqb (padded l i) (padded r i)); [apply IH|].
  destruct (Kind_eqb (extractKind (padded l i)) KindString
            && Kind_eqb (extractKind (padded r i)) KindInt); [auto|].
  destruct (Kind_eqb (extractKind (padded l i)) KindInt
            && Kind_eqb (extractKind (padded r i)) KindString); [auto|].
  destruct (Kind_eqb (extractKind (padded l i)) KindString
            && Kind_eqb (extractKind (padded r i)) KindString); [apply IH|].
  destruct (Strconv.Atoi (padded l i)) as [lint lok].
  destruct (Strconv.Atoi (padded r i)) as [rint rok].
  destruct (rint <? lint)%Z; auto.
Qed.

Lemma Compare_three_values (v o : Version) :
  Compare v o = (-1)%Z \/ Compare v o = 0%Z \/ Compare v o = 1%Z.
Proof.
  rewrite VersionProps.Compare_unfold.
  destruct (String.eqb (version v) (version o)
            || strArraysEqual (canonicalSegments v) (canonicalSegments o));
    [auto | apply compareLoop_range].
Qed.

(** X6.  [Compare] returns -1, 0 or 1 and nothing else, on every pair of
    versions, valid or not. *)
Theorem Compare_range (v o : Version) :
  Compare v o = (-1)%Z \/ Compare v o = 0%Z \/ Compare v o = 1%Z.
Proof. apply Compare_three_values. Qed.

(** X7.  Two versions whose canonical segments are the same compare
    equal, whatever their canonical strings are; so trailing zero
    segments never change the result against an equal version. *)
Theorem Compare_same_canonicalSegments (v o : Version) :
  canonicalSegments v = canonicalSegments o -> Compare v o = 0%Z.
Proof.
  intros H. unfold Compare.
  rewrite (proj2 (strArraysEqual_true_iff _ _) H), orb_true_r. reflexivity.
Qed.

Lemma Compare_same_canonicalSegments_witness :
  Compare (mkVersion "1.2") (mkVersion "1.2.0.0") = 0%Z.
Proof. apply Compare_same_canonicalSegments. reflexivity. Defined.

(** X8.  Two numeric entries that are different strings with the same
    integer value (a leading zero, or two values past the range of int,
    which [Atoi] clamps) never tie: the loop answers -1 whichever side is
    the receiver.  So [Compare] is not antisymmetric: the valid versions
    1.01 and 1.1 are each below the other. *)
Theorem Compare_equal_values_both_less :
  (forall (l r : list string) (i n : nat),
      padded l i <> padded r i ->
      extractKind (padded l i) = KindInt ->
      extractKind (padded r i) = KindInt ->
      fst (Strconv.Atoi (padded l i)) = fst (Strconv.Atoi (padded r i)) ->
      compareLoop l r i (S n) = (-1)%Z /\ compareLoop r l i (S n) = (-1)%Z)
  /\ (exists a b,
         New "1.01" = Ok a /\ New "1.1" = Ok b
         /\ Compare a b = (-1)%Z /\ Compare b a = (-1)%Z).
Proof.
  split.
  - intros l r i n Hne Hl Hr Hv. cbn [compareLoop].
    destruct (String.eqb_spec (padded l i) (padded r i)); [contradiction|].
    destruct (String.eqb_spec (padded r i) (padded l i)); [congruence|].
    rewrite Hl, Hr. simpl.
    destruct (Strconv.Atoi (padded l i)) as [lint lok].
    destruct (Strconv.Atoi (padded r i)) as [rint rok].
    simpl in Hv. subst. now rewrite Z.ltb_irrefl.
  - exists (mkVersion "1.01"), (mkVersion "1.1"). vm_compute. repeat split.
Qed.

Lemma Compare_equal_values_both_less_witness :
  compareLoop ["1"; "01"] ["1"; "1"] 1 1 = (-1)%Z
  /\ compareLoop ["1"; "1"] ["1"; "01"] 1 1 = (-1)%Z.
Proof.
  apply (proj1 Compare_equal_values_both_less);
    vm_compute; congruence.
Defined.

Lemma deleteArrayElement_head (v : string) (l : list string) :
  deleteArrayElement (v :: l) 0 = l.
Proof.
  unfold deleteArrayElement. cbn [deleteLoop Nat.eqb].
  apply deleteLoop_past. lia.
Qed.

Lemma trimNumerics_head (l : list string) :
  trimNumerics l l = []
  \/ exists x t, trimNumerics l l = x :: t /\ fst (Strconv.Atoi x) <> 0%Z.
Proof.
  induction l as [|v l IH]; [now left|].
  cbn [trimNumerics]. destruct (Strconv.Atoi v) as [value ok] eqn:E.
  destruct (Z.eqb_spec value 0) as [Z0|NZ].
  - rewrite deleteArrayElement_head. exact IH.
  - right. exists v, l. rewrite E. auto.
Qed.

Lemma trimStrings_head (l : list string) :
  trimStrings l l = []
  \/ exists x t, trimStrings l l = x :: t /\ Strconv.Atoi x <> (0%Z, true).
Proof.
  induction l as [|v l IH]; [now left|].
  cbn [trimStrings]. destruct (Strconv.Atoi v) as [value ok] eqn:E.
  destruct ok; cbn [negb].
  - destruct (Z.eqb_spec value 0) as [Z0|NZ].
    + rewrite deleteArrayElement_head. exact IH.
    + right. exists v, l. rewrite E. split; [reflexivity|congruence].
  - right. exists v, l. rewrite E. split; [reflexivity|congruence].
Qed.

(** X9.  The canonical segments of a version never end with a segment
    that [Atoi] reads as zero: trailing zeros are removed from the numeric
    run and from the alphanumeric run. *)
Theorem canonicalSegments_last_not_zero (v : Version)
        (init : list string) (x : string) :
  canonicalSegments v = (init ++ [x])%list ->
  Strconv.Atoi x <> (0%Z, true).
Proof.
  unfold canonicalSegments.
  destruct (splitSegments v) as [numerics stringset].
  destruct (trimStrings_head (rev stringset)) as [Es|(y & t & Es & Hy)];
    rewrite Es.
  - cbn [rev]. rewrite app_nil_r.
    destruct (trimNumerics_head (rev numerics)) as [En|(y & t & En & Hy)];
      rewrite En.
    + destruct init; discriminate.
    + cbn [rev]. intros H. apply app_inj_tail in H. destruct H as [_ <-].
      intros C. rewrite C in Hy. now apply Hy.
  - cbn [rev]. rewrite app_assoc. intros H.
    apply app_inj_tail in H. destruct H as [_ <-]. exact Hy.
Qed.

Lemma canonicalSegments_last_not_zero_witness :
  Strconv.Atoi "3" <> (0%Z, true).
Proof.
  apply (canonicalSegments_last_not_zero (mkVersion "1.0.3.0.0") ["1"; "0"]).
  reflexivity.
Defined.

Lemma setIndex_app (pre rest : list string) (x y : string) :
  setIndex (pre ++ x :: rest) (List.length pre) y = (pre ++ y :: rest)%list.
Proof.
  induction pre as [|p pre IH]; simpl; [reflexivity|]. now rewrite IH.
Qed.

Lemma nth_error_middle (pre rest : list string) (x : string) :
  nth_error (pre ++ x :: rest) (List.length pre) = Some x.
Proof.
  induction pre as [|p pre IH]; simpl; [reflexivity|]. exact IH.
Qed.

Lemma swap_ends (pre mid post : list string) (x y : string) :
  swap (pre ++ x :: mid ++ y :: post) (List.length pre)
       (List.length pre + List.length mid + 1)
  = (pre ++ y :: mid ++ x :: post)%list.
Proof.
  unfold swap. rewrite nth_error_middle.
  assert (E : (pre ++ x :: mid ++ y :: post
               = (pre ++ x :: mid) ++ y :: post)%list)
    by (now rewrite <- app_assoc).
  assert (L : (List.length pre + List.length mid + 1
               = List.length (pre ++ x :: mid))%nat)
    by (rewrite length_app; simpl; lia).
  rewrite L. rewrite E at 1. rewrite nth_error_middle.
  rewrite setIndex_app.
  assert (E' : (pre ++ y :: mid ++ y :: post
                = (pre ++ y :: mid) ++ y :: post)%list)
    by (now rewrite <- app_assoc).
  assert (L' : List.length (pre ++ x :: mid) = List.length (pre ++ y :: mid))
    by (rewrite !length_app; reflexivity).
  rewrite E', L', setIndex_app, <- app_assoc. reflexivity.
Qed.

Lemma reverseLoop_spec (fuel : nat) :
  forall mid pre post : list string,
    (List.length mid <= fuel)%nat ->
    reverseLoop fuel (pre ++ mid ++ post) (List.length pre)
                (List.length pre + List.length mid - 1)
    = (pre ++ rev mid ++ post)%list.
Proof.
  induction fuel as [|fuel IH]; intros mid pre post H.
  - destruct mid; [reflexivity | simpl in H; lia].
  - cbn [reverseLoop].
    destruct mid as [|x mid]; [|destruct (rev mid) as [|y dim] eqn:Er].
    + simpl. destruct (Nat.ltb_spec (List.length pre)
                                     (List.length pre + 0 - 1)); [lia|].
      reflexivity.
    + assert (mid = []) by (destruct mid; [reflexivity|];
        apply (f_equal (@List.length string)) in Er;
        rewrite length_rev in Er; discriminate).
      subst. simpl.
      destruct (Nat.ltb_spec (List.length pre)
                             (List.length pre + 1 - 1)); [lia|].
      reflexivity.
    + assert (Em : mid = (rev dim ++ [y])%list).
      { rewrite <- (rev_involutive mid), Er. reflexivity. }
      subst mid. clear Er.
      simpl in H. rewrite length_app in H. simpl in H.
      destruct (Nat.ltb_spec
                  (List.length pre)
                  (List.length pre + List.length (x :: rev dim ++ [y]) - 1))
        as [_|C]; [|simpl in C; rewrite length_app in C; simpl in C; lia].
      replace (pre ++ (x :: rev dim ++ [y]) ++ post)%list
        with (pre ++ x :: rev dim ++ y :: post)%list
        by (simpl; now rewrite <- app_assoc).
      replace (List.length pre + List.length (x :: rev dim ++ [y]) - 1)%nat
        with (List.length pre + List.length (rev dim) + 1)%nat
        by (simpl; rewrite length_app; simpl; lia).
      rewrite swap_ends.
      replace (pre ++ y :: rev dim ++ x :: post)%list
        with ((pre ++ [y]) ++ rev dim ++ (x :: post))%list
        by (now rewrite <- app_assoc).
      replace (S (List.length pre)) with (List.length (pre ++ [y]))
        by (rewrite length_app; simpl; lia).
      replace (List.length pre + List.length (rev dim) + 1 - 1)%nat
        with (List.length (pre ++ [y]) + List.length (rev dim) - 1)%nat
        by (rewrite length_app; simpl; lia).
      rewrite IH by lia.
      simpl. rewrite rev_app_distr. simpl.
      rewrite <- !app_assoc. reflexivity.
Qed.

(** X10.  [reverseSlice] reverses the slice: its swap loop, from both
    ends towards the middle, leaves the elements in the opposite order,
    for every length; applied twice it gives the slice back. *)
Theorem reverseSlice_rev (s : list string) :
  reverseSlice s = rev s /\ reverseSlice (reverseSlice s) = s.
Proof.
  assert (E : forall l, reverseSlice l = rev l).
  { intros l. unfold reverseSlice.
    pose proof (reverseLoop_spec (List.length l) l [] [] (le_n _)) as H.
    simpl in H. rewrite !app_nil_r in H. exact H. }
  split; [apply E|]. rewrite !E. apply rev_involutive.
Qed.

Lemma truncateSegments_no_letters (segs : list string) :
  forallb (fun y => negb (Regexp.MatchString lettersPattern y)) segs = true ->
  truncateSegments segs = segs.
Proof. apply VersionProps.truncateLoop_no_letters. Qed.

(** X11.  The truncation that [Bump], [Release] and
    [ApproximateRecommendation] share leaves a list without alphabetic
    segment as it is, and cuts any other list just before its LAST
    alphabetic segment: segments between two alphabetic ones survive. *)
Theorem truncateSegments_spec :
  (forall segs : list string,
      forallb (fun y => negb (Regexp.MatchString lettersPattern y)) segs = true ->
      truncateSegments segs = segs)
  /\ (forall (before after : list string) (x : string),
         Regexp.MatchString lettersPattern x = true ->
         forallb (fun y => negb (Regexp.MatchString lettersPattern y)) after
         = true ->
         truncateSegments (before ++ x :: after) = before).
Proof.
  split.
  - exact truncateSegments_no_letters.
  - exact VersionProps.truncateSegments_last_letter.
Qed.

Lemma truncateSegments_spec_witness :
  truncateSegments ["5"; "3"; "1"] = ["5"; "3"; "1"]
  /\ truncateSegments (["1"; "a"; "2"] ++ "b" :: ["3"]) = ["1"; "a"; "2"].
Proof.
  split.
  - apply (proj1 truncateSegments_spec). reflexivity.
  - apply (proj2 truncateSegments_spec); reflexivity.
Defined.

Lemma firstLetterIndex_from (segs : list string) (i : nat) :
  (1 <= i)%nat ->
  (forallb (fun y => negb (Regexp.MatchString lettersPattern y)) segs = true
   /\ firstLetterIndex segs i = 0%nat)
  \/ exists k,
      firstLetterIndex segs i = (i + k)%nat
      /\ forallb (fun y => negb (Regexp.MatchString lettersPattern y))
           (firstn k segs) = true
      /\ exists y t, skipn k segs = y :: t
                     /\ Regexp.MatchString lettersPattern y = true.
Proof.
  revert i. induction segs as [|x segs IH]; intros i Hi; [now left|].
  cbn [firstLetterIndex].
  destruct (Regexp.MatchString lettersPattern x) eqn:Hx.
  - right. exists 0%nat. rewrite Nat.add_0_r.
    split; [reflexivity|]. split; [reflexivity|].
    exists x, segs. split; [reflexivity | exact Hx].
  - destruct (IH (S i)) as [[Hall E]|(k & E & Hk & y & t & Hs & Hy)]; [lia| |].
    + left. cbn [forallb]. rewrite Hx, Hall. auto.
    + right. exists (S k). rewrite E. split; [lia|].
      cbn [firstn skipn forallb]. rewrite Hx, Hk.
      split; [reflexivity|]. exists y, t. auto.
Qed.

(** X12.  [splitSegments] cuts the segments in two without losing or
    reordering any.  When the first segment is numeric, the first part
    has no alphabetic segment and the second part is empty or starts with
    the first alphabetic segment.  When the first segment is alphabetic
    the cut index 0 is taken for "none found": every segment lands in the
    first part and the second is empty. *)
Theorem splitSegments_spec (v : Version) :
  (fst (splitSegments v) ++ snd (splitSegments v))%list = segments v
  /\ match segments v with
     | [] => splitSegments v = ([], [])
     | x :: _ =>
         if Regexp.MatchString lettersPattern x
         then splitSegments v = (segments v, [])
         else
           forallb (fun y => negb (Regexp.MatchString lettersPattern y))
                   (fst (splitSegments v)) = true
           /\ (snd (splitSegments v) = []
               \/ exists y t,
                   snd (splitSegments v) = y :: t
                   /\ Regexp.MatchString lettersPattern y = true)
     end.
Proof.
  unfold splitSegments. cbn [fst snd].
  split; [apply firstn_skipn|].
  destruct (segments v) as [|x rest]; [reflexivity|].
  cbn [firstLetterIndex].
  destruct (Regexp.MatchString lettersPattern x) eqn:Hx.
  - cbn [Nat.eqb]. now rewrite firstn_all, skipn_all.
  - destruct (firstLetterIndex_from rest 1 (le_n 1))
      as [[Hall E]|(k & E & Hk & y & t & Hs & Hy)]; rewrite E.
    + cbn [Nat.eqb]. rewrite firstn_all, skipn_all. split; [|now left].
      cbn [forallb]. now rewrite Hx, Hall.
    + cbn [Nat.add Nat.eqb firstn skipn forallb]. rewrite Hx, Hk.
      split; [reflexivity|]. right. eauto.
Qed.

Lemma trimNumerics_removes_zeros (l : list string) :
  exists zeros,
    l = (zeros ++ trimNumerics l l)%list
    /\ Forall (fun x => fst (Strconv.Atoi x) = 0%Z) zeros.
Proof.
  induction l as [|v l IH]; [exists []; auto|].
  cbn [trimNumerics]. destruct (Strconv.Atoi v) as [value ok] eqn:E.
  destruct (Z.eqb_spec value 0) as [Z0|NZ].
  - rewrite deleteArrayElement_head. destruct IH as (zeros & Hl & Hz).
    exists (v :: zeros). split; [simpl; now rewrite <- Hl|].
    constructor; [now rewrite E | assumption].
  - exists []. auto.
Qed.

Lemma trimStrings_removes_zeros (l : list string) :
  exists zeros,
    l = (zeros ++ trimStrings l l)%list
    /\ Forall (fun x => Strconv.Atoi x = (0%Z, true)) zeros.
Proof.
  induction l as [|v l IH]; [exists []; auto|].
  cbn [trimStrings]. destruct (Strconv.Atoi v) as [value ok] eqn:E.
  destruct ok; cbn [negb]; [|exists []; auto].
  destruct (Z.eqb_spec value 0) as [Z0|NZ]; [|exists []; auto].
  rewrite deleteArrayElement_head. destruct IH as (zeros & Hl & Hz).
  exists (v :: zeros). split; [simpl; now rewrite <- Hl|].
  constructor; [now subst | assumption].
Qed.

(** X13.  The canonical segments are the two parts of [splitSegments],
    each without a tail of segments that [Atoi] reads as zero, put
    together again: nothing else is removed, and nothing is removed from
    the middle of a part. *)
Theorem canonicalSegments_spec (v : Version) :
  exists n s zn zs : list string,
    splitSegments v = ((n ++ zn)%list, (s ++ zs)%list)
    /\ canonicalSegments v = (n ++ s)%list
    /\ Forall (fun x => fst (Strconv.Atoi x) = 0%Z) zn
    /\ Forall (fun x => Strconv.Atoi x = (0%Z, true)) zs.
Proof.
  unfold canonicalSegments.
  destruct (splitSegments v) as [numerics stringset].
  destruct (trimNumerics_removes_zeros (rev numerics)) as (zn & Hn & Fn).
  destruct (trimStrings_removes_zeros (rev stringset)) as (zs & Hs & Fs).
  exists (rev (trimNumerics (rev numerics) (rev numerics))),
         (rev (trimStrings (rev stringset) (rev stringset))),
         (rev zn), (rev zs).
  repeat split.
  - rewrite <- !rev_app_distr, <- Hn, <- Hs, !rev_involutive. reflexivity.
  - now apply Forall_rev.
  - now apply Forall_rev.
Qed.

Lemma string_app_assoc (a b c : string) : (a ++ b) ++ c = a ++ (b ++ c).
Proof. induction a as [|x a IH]; simpl; [reflexivity|]. now rewrite IH. Qed.

Lemma string_app_empty (a : string) : a ++ EmptyString = a.
Proof. induction a as [|x a IH]; simpl; [reflexivity|]. now rewrite IH. Qed.

(** X14.  [ApproximateRecommendation] is "~> " followed by the first two
    segments left by the truncation, joined by a dot, with .a added for a
    prerelease.  A single segment is completed by one 0; when no segment
    is left the result has the single segment 0, not two. *)
Theorem ApproximateRecommendation_shape (v : Version) :
  let suffix := if IsPrerelease v then ".a" else EmptyString in
  ApproximateRecommendation v
  = match truncateSegments (segments v) with
    | [] => "~> 0" ++ suffix
    | [a] => "~> " ++ a ++ ".0" ++ suffix
    | a :: b :: _ => "~> " ++ a ++ "." ++ b ++ suffix
    end.
Proof.
  unfold ApproximateRecommendation.
  destruct (truncateSegments (segments v)) as [|a [|b [|c rest]]];
    cbn [List.length Nat.ltb Nat.leb firstn app Strings.Join];
    destruct (IsPrerelease v); cbn zeta;
    rewrite ?string_app_assoc; simpl;
    rewrite ?string_app_assoc, ?string_app_empty; reflexivity.
Qed.

End VersionExtra.

(** ** Package requirement, continued *)

Module RequirementExtra.

Import RequirementBase.

Lemma lookupOperator_found (table : list opFunc) (parts0 : string) :
  lookupOperator table parts0 = EmptyString
  \/ (lookupOperator table parts0 = parts0 /\ In parts0 (map Op table)).
Proof.
  induction table as [|value table IH]; simpl; [now left|].
  destruct (String.eqb_spec parts0 (Op value)) as [E|N].
  - destruct (Op value) eqn:Ev; [now left|]. right. rewrite E. auto.
  - destruct IH as [IH|[IH1 IH2]]; auto.
Qed.

Lemma findParts_contains (Ops : list string) (s parts0 parts1 : string) :
  RequirementScan.findParts Ops s = [parts0; parts1] ->
  Strings.Contains s parts0 = true /\ parts1 = Strings.RemoveFirst s parts0.
Proof.
  induction Ops as [|op Ops IH]; simpl; [discriminate|].
  destruct (Strings.Contains s op) eqn:E; [|exact IH].
  intros H. injection H as <- <-. auto.
Qed.

(** X15.  In the revision of part_001 every specifier [parse] returns has
    one of the seven operators, the string contains that operator, and
    the version is one [version.New] accepted. *)
Theorem parse_result_well_formed (s : string)
        (sp : RequirementScan.RequirementSpecifier) :
  RequirementScan.parse s = Ok sp ->
  In (RequirementScan.Operator sp) RequirementScan.Ops
  /\ Strings.Contains s (RequirementScan.Operator sp) = true
  /\ exists t, Version.New t = Ok (RequirementScan.Version sp).
Proof.
  unfold RequirementScan.parse.
  destruct (negb (Regexp.MatchString RequirementScan.pattern s));
    [discriminate|].
  destruct (RequirementScan.findParts RequirementScan.Ops s)
    as [|parts0 [|parts1 [|x rest]]] eqn:Ef; try discriminate.
  destruct (findParts_contains _ _ _ _ Ef) as [Hc _].
  destruct (lookupOperator_found RequirementScan.ops parts0) as [E|[E Hin]];
    rewrite E; [discriminate|].
  assert (HinOps : In parts0 RequirementScan.Ops).
  { simpl in Hin. simpl. intuition. }
  destruct (String.eqb_spec parts0 EmptyString) as [E0|N0]; [discriminate|].
  destruct (String.eqb_spec parts0 ">=") as [Ege|Nge]; simpl.
  - subst parts0.
    destruct (String.eqb parts1 "0");
      [intros H; injection H as <-; repeat split; auto;
       exists "0"; reflexivity|].
    destruct (String.eqb parts1 "0.a");
      [intros H; injection H as <-; repeat split; auto;
       exists "0.a"; reflexivity|].
    destruct (Version.New parts1) as [ver|e] eqn:En; [|discriminate].
    intros H. injection H as <-. simpl. repeat split; auto.
    exists parts1. exact En.
  - destruct (Version.New parts1) as [ver|e] eqn:En; [|discriminate].
    intros H. injection H as <-. simpl. repeat split; auto.
    exists parts1. exact En.
Qed.

Lemma parse_result_well_formed_witness :
  In ">" RequirementScan.Ops.
Proof.
  apply (parse_result_well_formed "> 1.3.5"
           (RequirementScan.mkSpecifier ">" (Version.mkVersion "1.3.5"))).
  reflexivity.
Defined.

Lemma newLoop_spec (requirements : list string)
      (reqs : list RequirementScan.RequirementSpecifier)
      (r : RequirementScan.Requirement) :
  RequirementScan.newLoop requirements reqs = Ok r
  <-> exists l,
      Forall2 (fun s sp => RequirementScan.parse s = Ok sp) requirements l
      /\ RequirementScan.requirements r = (reqs ++ l)%list.
Proof.
  revert reqs. induction requirements as [|value rest IH]; intros reqs; simpl.
  - split.
    + intros H. injection H as <-. exists []. simpl.
      now rewrite app_nil_r.
    + intros (l & Hl & Hr). inversion Hl; subst.
      rewrite app_nil_r in Hr. destruct r as [rl]. simpl in Hr. now subst.
  - destruct (RequirementScan.parse value) as [req|e] eqn:Ep.
    + rewrite IH. split.
      * intros (l & Hl & Hr). exists (req :: l). split; [now constructor|].
        now rewrite <- app_assoc in Hr.
      * intros (l & Hl & Hr). inversion Hl as [|? sp ? l' Hsp Hl']; subst.
        assert (sp = req) by congruence. subst sp.
        exists l'. split; [assumption|]. now rewrite <- app_assoc.
    + split; [discriminate|].
      intros (l & Hl & _). inversion Hl; subst. congruence.
Qed.

Lemma newLoop_error (good : list string) (bad : string) (rest : list string)
      (l reqs : list RequirementScan.RequirementSpecifier) (e : string) :
  Forall2 (fun s sp => RequirementScan.parse s = Ok sp) good l ->
  RequirementScan.parse bad = Err e ->
  RequirementScan.newLoop (good ++ bad :: rest) reqs = Err e.
Proof.
  intros Hl Hbad. revert reqs.
  induction Hl as [|s sp good l Hs Hl IH]; intros reqs; simpl.
  - now rewrite Hbad.
  - rewrite Hs. apply IH.
Qed.

(** X16.  [New] builds a set exactly when [parse] accepts every string:
    the set then has one specifier per string, in the order given, each
    the result of [parse] on its string.  Otherwise [New] returns the
    error of the first string [parse] rejects. *)
Theorem New_spec :
  (forall (requirements : list string) (r : RequirementScan.Requirement),
      RequirementScan.New requirements = Ok r
      <-> Forall2 (fun s sp => RequirementScan.parse s = Ok sp)
            requirements (RequirementScan.requirements r))
  /\ (forall (good : list string) (bad : string) (rest : list string)
             (l : list RequirementScan.RequirementSpecifier) (e : string),
         Forall2 (fun s sp => RequirementScan.parse s = Ok sp) good l ->
         RequirementScan.parse bad = Err e ->
         RequirementScan.New (good ++ bad :: rest) = Err e).
Proof.
  split.
  - intros requirements r. unfold RequirementScan.New.
    rewrite newLoop_spec. simpl. split.
    + intros (l & Hl & ->). exact Hl.
    + intros H. eauto.
  - intros good bad rest l e Hl Hbad. unfold RequirementScan.New.
    now apply (newLoop_error good bad rest l).
Qed.

Lemma New_spec_witness :
  RequirementScan.New ["> 1.2"; "< 1.4"]
  = Ok (RequirementScan.mkRequirement
          [RequirementScan.mkSpecifier ">" (Version.mkVersion "1.2");
           RequirementScan.mkSpecifier "<" (Version.mkVersion "1.4")])
  /\ RequirementScan.New (["> 1.2"] ++ "> 1." :: ["< 1.4"])
     = Err ("unable to parse requirement: '> 1.' with regex: "
            ++ RequirementScan.patternText).
Proof.
  split.
  - apply (proj1 New_spec). repeat constructor.
  - apply (proj2 New_spec ["> 1.2"] "> 1." ["< 1.4"]
             [RequirementScan.mkSpecifier ">" (Version.mkVersion "1.2")]).
    + repeat constructor.
    + vm_compute. reflexivity.
Defined.

Lemma concatInner_appends (req : string)
      (sp : RequirementScan.RequirementSpecifier)
      (registered current : list RequirementScan.RequirementSpecifier) :
  RequirementScan.parse req = Ok sp ->
  RequirementScan.concatInner req registered current
  = ((current
      ++ repeat sp
           (List.length
              (filter
                 (fun reg =>
                    negb (String.eqb (RequirementScan.Operator reg)
                                     (RequirementScan.Operator sp)
                          || (Version.Compare (RequirementScan.Version sp)
                                (RequirementScan.Version reg) =? 0)%Z))
                 registered)))%list,
     true).
Proof.
  intros Hp. revert current.
  induction registered as [|reg registered IH]; intros current; simpl.
  - now rewrite app_nil_r.
  - rewrite Hp.
    destruct (String.eqb (RequirementScan.Operator reg)
                         (RequirementScan.Operator sp)
              || (Version.Compare (RequirementScan.Version sp)
                    (RequirementScan.Version reg) =? 0)%Z); simpl.
    + apply IH.
    + rewrite IH, <- app_assoc. reflexivity.
Qed.

(** X17.  [Concat] appends a new constraint once for EACH specifier of
    the set that differs from it both in operator and, by [Compare], in
    version: with one string, the set grows by that many copies of the
    parsed specifier, and by none when every specifier shares its
    operator or its version. *)
Theorem Concat_one_string (r : RequirementScan.Requirement) (req : string)
        (sp : RequirementScan.RequirementSpecifier) :
  RequirementScan.parse req = Ok sp ->
  RequirementScan.Concat r [req]
  = RequirementScan.ConcatReceiver
      (RequirementScan.mkRequirement
         (RequirementScan.requirements r
          ++ repeat sp
               (List.length
                  (filter
                     (fun reg =>
                        negb (String.eqb (RequirementScan.Operator reg)
                                         (RequirementScan.Operator sp)
                              || (Version.Compare (RequirementScan.Version sp)
                                    (RequirementScan.Version reg) =? 0)%Z))
                     (RequirementScan.requirements r))))%list).
Proof.
  intros Hp. unfold RequirementScan.Concat. simpl.
  now rewrite (concatInner_appends _ _ _ _ Hp).
Qed.

Lemma Concat_one_string_witness :
  RequirementScan.Concat
    (RequirementScan.mkRequirement
       [RequirementScan.mkSpecifier ">" (Version.mkVersion "1.2");
        RequirementScan.mkSpecifier "<" (Version.mkVersion "1.4")])
    ["!= 1.3"]
  = RequirementScan.ConcatReceiver
      (RequirementScan.mkRequirement
         [RequirementScan.mkSpecifier ">" (Version.mkVersion "1.2");
          RequirementScan.mkSpecifier "<" (Version.mkVersion "1.4");
          RequirementScan.mkSpecifier "!=" (Version.mkVersion "1.3");
          RequirementScan.mkSpecifier "!=" (Version.mkVersion "1.3")]).
Proof.
  apply (Concat_one_string
           (RequirementScan.mkRequirement
              [RequirementScan.mkSpecifier ">" (Version.mkVersion "1.2");
               RequirementScan.mkSpecifier "<" (Version.mkVersion "1.4")])
           "!= 1.3"
           (RequirementScan.mkSpecifier "!=" (Version.mkVersion "1.3"))).
  reflexivity.
Defined.

(** X18.  On a set that has a specifier, a first string [parse] rejects
    makes [Concat] return nil at once: the strings after it are not
    looked at and the set is left as it was. *)
Theorem Concat_malformed_first (r : RequirementScan.Requirement)
        (req : string) (rest : list string) (e : string) :
  RequirementScan.requirements r <> [] ->
  RequirementScan.parse req = Err e ->
  RequirementScan.Concat r (req :: rest) = RequirementScan.ConcatNil r.
Proof.
  intros Hne Hp. destruct r as [reqs]. unfold RequirementScan.Concat.
  simpl in *. destruct reqs as [|r0 reqs]; [contradiction|].
  simpl. now rewrite Hp.
Qed.

Lemma Concat_malformed_first_witness :
  RequirementScan.Concat
    (RequirementScan.mkRequirement
       [RequirementScan.mkSpecifier ">" (Version.mkVersion "1.2")])
    ["1."; "< 2"]
  = RequirementScan.ConcatNil
      (RequirementScan.mkRequirement
         [RequirementScan.mkSpecifier ">" (Version.mkVersion "1.2")]).
Proof.
  apply (Concat_malformed_first _ "1." ["< 2"]
           ("unable to parse requirement: '1.' with regex: "
            ++ RequirementScan.patternText)).
  - discriminate.
  - vm_compute. reflexivity.
Defined.

Lemma concatInner_extends (req : string)
      (registered current : list RequirementScan.RequirementSpecifier) :
  exists extra,
    fst (RequirementScan.concatInner req registered current)
    = (current ++ extra)%list
    /\ Forall (fun sp => RequirementScan.parse req = Ok sp) extra.
Proof.
  destruct (RequirementScan.parse req) as [sp|e] eqn:Hp.
  - rewrite (concatInner_appends _ _ _ _ Hp). simpl.
    eexists. split; [reflexivity|].
    apply Forall_forall. intros x Hx. apply repeat_spec in Hx. now subst.
  - exists []. split; [|constructor]. rewrite app_nil_r.
    destruct registered; simpl; [reflexivity|]. now rewrite Hp.
Qed.

Lemma concatOuter_extends (requirements : list string) :
  forall current : list RequirementScan.RequirementSpecifier,
  exists extra,
    (RequirementScan.concatOuter requirements current
     = RequirementScan.ConcatReceiver
         (RequirementScan.mkRequirement (current ++ extra))
     \/ RequirementScan.concatOuter requirements current
        = RequirementScan.ConcatNil
            (RequirementScan.mkRequirement (current ++ extra)))
    /\ Forall (fun sp => exists req, In req requirements
                                     /\ RequirementScan.parse req = Ok sp)
              extra.
Proof.
  induction requirements as [|req rest IH]; intros current.
  - exists []. simpl. rewrite app_nil_r. split; [now left | constructor].
  - simpl.
    destruct (concatInner_extends req current current) as (ex1 & E1 & F1).
    destruct (RequirementScan.concatInner req current current)
      as [current' ok]. simpl in E1. subst current'.
    assert (F1' : Forall (fun sp => exists req0, In req0 (req :: rest)
                            /\ RequirementScan.parse req0 = Ok sp) ex1).
    { revert F1. apply Forall_impl. intros sp Hsp. exists req.
      split; [now left | assumption]. }
    destruct ok.
    + destruct (IH (current ++ ex1)%list) as (ex2 & E2 & F2).
      exists (ex1 ++ ex2)%list. rewrite app_assoc. split; [exact E2|].
      apply Forall_app. split; [exact F1'|].
      revert F2. apply Forall_impl. intros sp (req0 & Hin & Hp).
      exists req0. split; [now right | assumption].
    + exists ex1. split; [now right | exact F1'].
Qed.

(** X19.  Whatever the strings are, and whether it returns the receiver
    or nil, [Concat] only appends: the specifiers the set had stay, in
    their order, at the front, and every specifier added is the result of
    [parse] on one of the strings. *)
Theorem Concat_only_appends (r : RequirementScan.Requirement)
        (requirements : list string) :
  exists extra,
    (RequirementScan.Concat r requirements
     = RequirementScan.ConcatReceiver
         (RequirementScan.mkRequirement
            (RequirementScan.requirements r ++ extra))
     \/ RequirementScan.Concat r requirements
        = RequirementScan.ConcatNil
            (RequirementScan.mkRequirement
               (RequirementScan.requirements r ++ extra)))
    /\ Forall (fun sp => exists req, In req requirements
                                     /\ RequirementScan.parse req = Ok sp)
              extra.
Proof. apply concatOuter_extends. Qed.

(** X20.  The three predicates on a set exclude each other as the code
    has them: a set that is [Exact] is specific and is not [HasNone]; a
    set that is [HasNone] is neither specific nor exact. *)
Theorem Exact_HasNone_IsSpecific (r : RequirementScan.Requirement) :
  (RequirementScan.Exact r = true ->
   RequirementScan.IsSpecific r = true /\ RequirementScan.HasNone r = false)
  /\ (RequirementScan.HasNone r = true ->
      RequirementScan.IsSpecific r = false /\ RequirementScan.Exact r = false).
Proof.
  destruct r as [reqs].
  unfold RequirementScan.Exact, RequirementScan.HasNone,
    RequirementScan.IsSpecific.
  simpl RequirementScan.requirements.
  change (RequirementScan.Operator RequirementScan.DefaultRequirement)
    with ">=".
  destruct reqs as [|r0 [|r1 rest]]; simpl; try (split; discriminate).
  split.
  - intros H. apply String.eqb_eq in H. rewrite H. simpl. auto.
  - intros H. apply andb_prop in H. destruct H as [H _].
    apply String.eqb_eq in H. rewrite H. simpl. auto.
Qed.

Lemma Exact_HasNone_IsSpecific_witness :
  RequirementScan.IsSpecific
    (RequirementScan.mkRequirement
       [RequirementScan.mkSpecifier "=" (Version.mkVersion "1.0")]) = true
  /\ RequirementScan.IsSpecific
       (RequirementScan.mkRequirement
          [RequirementScan.mkSpecifier ">=" (Version.mkVersion "0.a")])
     = false.
Proof.
  split.
  - apply (proj1 (Exact_HasNone_IsSpecific _)). reflexivity.
  - apply (proj2 (Exact_HasNone_IsSpecific _)). reflexivity.
Defined.

Lemma satisfiedLoop_no_entry (table : list opFunc)
      (rs : RequirementScan.RequirementSpecifier) (v : Version.Version) :
  ~ In (RequirementScan.Operator rs) (map Op table) ->
  RequirementScan.satisfiedLoop table rs v = Returns true.
Proof.
  induction table as [|value table IH]; intros H; simpl; [reflexivity|].
  destruct (String.eqb_spec (Op value) (RequirementScan.Operator rs)) as [E|N].
  - exfalso. apply H. now left.
  - apply IH. intros C. apply H. now right.
Qed.

Lemma comparison_table (ver v : Version.Version) :
  let sat op :=
    RequirementScan.RequirementSpecifier_IsSatisfiedBy
      (RequirementScan.mkSpecifier op ver) v in
  let c := Version.Compare ver v in
  sat "=" = Returns (c =? 0)%Z
  /\ sat "!=" = Returns (negb (c =? 0)%Z)
  /\ sat ">" = Returns (c =? -1)%Z
  /\ sat "<=" = Returns (negb (c =? -1)%Z)
  /\ sat "<" = Returns (c =? 1)%Z
  /\ sat ">=" = Returns (negb (c =? 1)%Z)
  /\ ((c =? 0)%Z || (c =? -1)%Z || (c =? 1)%Z = true)
  /\ ((c =? 0)%Z && (c =? -1)%Z = false)
  /\ ((c =? 0)%Z && (c =? 1)%Z = false)
  /\ ((c =? -1)%Z && (c =? 1)%Z = false).
Proof.
  intros sat c. subst sat.
  unfold RequirementScan.RequirementSpecifier_IsSatisfiedBy.
  cbv [RequirementScan.ops RequirementScan.satisfiedLoop
       RequirementScan.callFunc RequirementScan.equalsFunc
       RequirementScan.notEqualsFunc RequirementScan.greaterThanFunc
       RequirementScan.lessThanFunc RequirementScan.gteFunc
       RequirementScan.lteFunc RequirementScan.Operator
       RequirementScan.Version Op Func].
  cbn [String.eqb Ascii.eqb Bool.eqb].
  fold c.
  destruct (VersionExtra.Compare_three_values ver v) as [H|[H|H]];
    fold c in H; rewrite H; simpl; repeat split.
Qed.

(** X21.  The six comparison operators, through the table: with [c] the
    result of [Compare] from the specifier's version to the tested one,
    "=" holds when c is 0, ">" when c is -1 (the tested version is the
    greater) and "<" when c is 1; "!=", "<=" and ">=" are their exact
    negations.  None of the six panics, and exactly one of "=", ">" and
    "<" holds. *)
Theorem comparison_operators (ver v : Version.Version) :
  let sat op :=
    RequirementScan.RequirementSpecifier_IsSatisfiedBy
      (RequirementScan.mkSpecifier op ver) v in
  let c := Version.Compare ver v in
  sat "=" = Returns (c =? 0)%Z
  /\ sat "!=" = Returns (negb (c =? 0)%Z)
  /\ sat ">" = Returns (c =? -1)%Z
  /\ sat "<=" = Returns (negb (c =? -1)%Z)
  /\ sat "<" = Returns (c =? 1)%Z
  /\ sat ">=" = Returns (negb (c =? 1)%Z)
  /\ ((c =? 0)%Z || (c =? -1)%Z || (c =? 1)%Z = true)
  /\ ((c =? 0)%Z && (c =? -1)%Z = false)
  /\ ((c =? 0)%Z && (c =? 1)%Z = false)
  /\ ((c =? -1)%Z && (c =? 1)%Z = false).
Proof. apply comparison_table. Qed.

(** X22.  A specifier whose operator is not in the table is satisfied by
    every version: the loop finds no entry to call. *)
Theorem unknown_operator_satisfied
        (rs : RequirementScan.RequirementSpecifier) (v : Version.Version) :
  ~ In (RequirementScan.Operator rs) RequirementScan.Ops ->
  RequirementScan.RequirementSpecifier_IsSatisfiedBy rs v = Returns true.
Proof.
  intros H. apply satisfiedLoop_no_entry.
  intros C. apply H. simpl in C. simpl. intuition.
Qed.

Lemma unknown_operator_satisfied_witness :
  RequirementScan.RequirementSpecifier_IsSatisfiedBy
    (RequirementScan.mkSpecifier "=>" (Version.mkVersion "2.0"))
    (Version.mkVersion "1.0")
  = Returns true.
Proof.
  apply unknown_operator_satisfied. simpl.
  intros [H|[H|[H|[H|[H|[H|[H|H]]]]]]]; try discriminate H. exact H.
Defined.

Lemma tilde_through_table (ver v : Version.Version) :
  RequirementScan.RequirementSpecifier_IsSatisfiedBy
    (RequirementScan.mkSpecifier "~>" ver) v
  = match RequirementScan.tildeGTFunc
            (RequirementScan.mkSpecifier "~>" ver) v with
    | Panics msg => Panics msg
    | Returns b => Returns b
    end.
Proof.
  unfold RequirementScan.RequirementSpecifier_IsSatisfiedBy.
  cbv [RequirementScan.ops RequirementScan.satisfiedLoop
       RequirementScan.callFunc RequirementScan.Operator Op Func].
  cbn [String.eqb Ascii.eqb Bool.eqb].
  destruct (RequirementScan.tildeGTFunc _ v) as [[|]|msg]; reflexivity.
Qed.

(** X23.  The operator "~>": a version that satisfies it also satisfies
    ">=" with the same specifier version; and the test panics whenever
    [Bump] panics on the specifier's version, which happens for a
    requirement [parse] accepts. *)
Theorem tilde_operator :
  (forall ver v : Version.Version,
      RequirementScan.RequirementSpecifier_IsSatisfiedBy
        (RequirementScan.mkSpecifier "~>" ver) v = Returns true ->
      RequirementScan.RequirementSpecifier_IsSatisfiedBy
        (RequirementScan.mkSpecifier ">=" ver) v = Returns true)
  /\ (forall (ver v : Version.Version) (msg : string),
         Version.Bump ver = Panics msg ->
         RequirementScan.RequirementSpecifier_IsSatisfiedBy
           (RequirementScan.mkSpecifier "~>" ver) v = Panics msg)
  /\ (exists sp msg,
         RequirementScan.parse "~> 1.a.2.b.3" = Ok sp
         /\ forall v,
             RequirementScan.RequirementSpecifier_IsSatisfiedBy sp v
             = Panics msg).
Proof.
  assert (P : forall (ver v : Version.Version) (msg : string),
             Version.Bump ver = Panics msg ->
             RequirementScan.RequirementSpecifier_IsSatisfiedBy
               (RequirementScan.mkSpecifier "~>" ver) v = Panics msg).
  { intros ver v msg H. rewrite tilde_through_table.
    unfold RequirementScan.tildeGTFunc. simpl RequirementScan.Version.
    now rewrite H. }
  split; [|split].
  - intros ver v H. rewrite tilde_through_table in H.
    unfold RequirementScan.tildeGTFunc in H.
    simpl RequirementScan.Version in H.
    destruct (Version.Bump ver) as [bumped|msg]; [|discriminate].
    destruct (RequirementScan.gteFunc (RequirementScan.mkSpecifier "~>" ver) v)
      eqn:G; [|discriminate].
    unfold RequirementScan.gteFunc in G. simpl RequirementScan.Version in G.
    destruct (comparison_table ver v)
      as (_ & _ & _ & _ & _ & Hge & _ & _ & H01 & H11).
    cbv zeta in Hge. rewrite Hge. f_equal.
    destruct (Version.Compare ver v =? 1)%Z; [|reflexivity].
    rewrite andb_true_r in H01, H11. rewrite H01, H11 in G. discriminate.
  - exact P.
  - exists (RequirementScan.mkSpecifier "~>" (Version.mkVersion "1.a.2.b.3")),
           "last element string should contain an int".
    split; [vm_compute; reflexivity|].
    intros v. apply P. vm_compute. reflexivity.
Qed.

Lemma tilde_operator_witness :
  RequirementScan.RequirementSpecifier_IsSatisfiedBy
    (RequirementScan.mkSpecifier ">=" (Version.mkVersion "3.5"))
    (Version.mkVersion "3.5.1") = Returns true
  /\ RequirementScan.RequirementSpecifier_IsSatisfiedBy
       (RequirementScan.mkSpecifier "~>" (Version.mkVersion ""))
       (Version.mkVersion "1")
     = Panics "runtime error: index out of range [-1]".
Proof.
  split.
  - apply (proj1 tilde_operator). vm_compute. reflexivity.
  - apply (proj1 (proj2 tilde_operator)). vm_compute. reflexivity.
Defined.

Lemma isSatisfiedByLoop_true
      (reqs : list RequirementScan.RequirementSpecifier)
      (v : Version.Version) :
  RequirementScan.isSatisfiedByLoop reqs v = Returns true
  <-> Forall (fun sp =>
                RequirementScan.RequirementSpecifier_IsSatisfiedBy sp v
                = Returns true) reqs.
Proof.
  induction reqs as [|sp reqs IH]; simpl.
  - split; [constructor | reflexivity].
  - destruct (RequirementScan.RequirementSpecifier_IsSatisfiedBy sp v)
      as [[|]|msg] eqn:E.
    + rewrite IH. split.
      * intros H. now constructor.
      * intros H. now inversion H.
    + split; [discriminate|]. intros H. inversion H; subst. congruence.
    + split; [discriminate|]. intros H. inversion H; subst. congruence.
Qed.

Lemma isSatisfiedByLoop_returns
      (reqs : list RequirementScan.RequirementSpecifier)
      (v : Version.Version) :
  Forall (fun sp => RequirementScan.Operator sp <> "~>") reqs ->
  exists b, RequirementScan.isSatisfiedByLoop reqs v = Returns b.
Proof.
  induction 1 as [|sp reqs Hsp _ IH]; simpl; [eauto|].
  assert (Hr : exists b,
             RequirementScan.RequirementSpecifier_IsSatisfiedBy sp v
             = Returns b).
  { destruct sp as [op ver]. simpl in Hsp.
    destruct (comparison_table ver v)
      as (H1 & H2 & H3 & H4 & H5 & H6 & _).
    cbv zeta in H1, H2, H3, H4, H5, H6.
    destruct (in_dec string_dec op RequirementScan.Ops) as [Hin|Hout].
    - simpl in Hin.
      destruct Hin as [<-|[<-|[<-|[<-|[<-|[<-|[<-|[]]]]]]]]; eauto.
      contradiction.
    - exists true. apply satisfiedLoop_no_entry.
      intros C. apply Hout. simpl in C. simpl. intuition. }
  destruct Hr as [[|] Hr]; rewrite Hr; eauto.
Qed.

(** X24.  A set is satisfied by a version exactly when each of its
    specifiers is: the answer is true if and only if every specifier
    answers true (so the set without specifier is satisfied by every
    version); and when no specifier has the operator "~>" the test
    returns, it does not panic. *)
Theorem IsSatisfiedBy_spec (r : RequirementScan.Requirement)
        (v : Version.Version) :
  (RequirementScan.IsSatisfiedBy r v = Returns true
   <-> Forall (fun sp =>
                 RequirementScan.RequirementSpecifier_IsSatisfiedBy sp v
                 = Returns true) (RequirementScan.requirements r))
  /\ (Forall (fun sp => RequirementScan.Operator sp <> "~>")
             (RequirementScan.requirements r) ->
      exists b, RequirementScan.IsSatisfiedBy r v = Returns b).
Proof.
  split.
  - apply isSatisfiedByLoop_true.
  - apply isSatisfiedByLoop_returns.
Qed.

Lemma IsSatisfiedBy_spec_witness :
  RequirementScan.IsSatisfiedBy
    (RequirementScan.mkRequirement
       [RequirementScan.mkSpecifier ">" (Version.mkVersion "1.2");
        RequirementScan.mkSpecifier "<" (Version.mkVersion "1.4");
        RequirementScan.mkSpecifier "!=" (Version.mkVersion "1.3.3")])
    (Version.mkVersion "1.3.5") = Returns true
  /\ exists b,
      RequirementScan.IsSatisfiedBy
        (RequirementScan.mkRequirement
           [RequirementScan.mkSpecifier ">=" (Version.mkVersion "1.3.5")])
        (Version.mkVersion "1.0.6") = Returns b.
Proof.
  split.
  - apply (proj1 (IsSatisfiedBy_spec _ _)).
    repeat constructor.
  - apply (proj2 (IsSatisfiedBy_spec _ _)).
    repeat constructor. simpl. discriminate.
Defined.

Lemma SplitByte_not_nil (s : string) (sep : ascii) :
  Strings.SplitByte s sep <> [].
Proof.
  destruct s as [|c s]; simpl; [discriminate|].
  destruct (Ascii.eqb c sep); [discriminate|].
  destruct (Strings.SplitByte s sep); discriminate.
Qed.

Lemma SplitByte_one (s : string) (sep : ascii) (b : string) :
  Strings.SplitByte s sep = [b] ->
  s = b /\ Strings.someByte (Ascii.eqb sep) s = false.
Proof.
  revert b. induction s as [|c s IH]; intros b; simpl.
  - intros H. injection H as <-. auto.
  - destruct (Ascii.eqb_spec c sep) as [E|N].
    + intros H. injection H as _ H. now apply SplitByte_not_nil in H.
    + destruct (Strings.SplitByte s sep) as [|p ps] eqn:Es;
        [now apply SplitByte_not_nil in Es|].
      intros H. injection H as <- ->.
      destruct (IH p eq_refl) as [-> Hno]. split; [reflexivity|].
      rewrite Hno. destruct (Ascii.eqb_spec sep c); [congruence|reflexivity].
Qed.

Lemma SplitByte_two (s : string) (sep : ascii) (a b : string) :
  Strings.SplitByte s sep = [a; b] ->
  s = a ++ String sep b
  /\ Strings.someByte (Ascii.eqb sep) a = false
  /\ Strings.someByte (Ascii.eqb sep) b = false.
Proof.
  revert a. induction s as [|c s IH]; intros a; simpl; [discriminate|].
  destruct (Ascii.eqb_spec c sep) as [E|N].
  - intros H. injection H as <- H. apply SplitByte_one in H.
    destruct H as [-> Hno]. subst c. simpl. auto.
  - destruct (Strings.SplitByte s sep) as [|p ps] eqn:Es;
      [discriminate|].
    intros H. injection H as <- ->.
    destruct (IH p eq_refl) as (-> & Ha & Hb). simpl.
    repeat split; [|assumption].
    rewrite Ha. destruct (Ascii.eqb_spec sep c); [congruence|reflexivity].
Qed.

(** X25.  In the revision of src/requirement/requirement.go every string
    [parse] accepts is an operator of the table, one blank, and the rest,
    with no other blank anywhere: the string is the specifier's operator,
    a blank and a version text.  So a blank before the operator or after
    the version, two blanks, or no blank at all make [parse] fail. *)
Theorem parse_split_shape (s : string)
        (sp : RequirementSplit.RequirementSpecifier) :
  RequirementSplit.parse s = Ok sp ->
  In (RequirementSplit.Operator sp) RequirementSplit.Ops
  /\ exists text,
      s = RequirementSplit.Operator sp ++ " " ++ text
      /\ Strings.someByte (Ascii.eqb " ") text = false.
Proof.
  unfold RequirementSplit.parse.
  destruct (negb (Regexp.MatchString RequirementSplit.pattern s));
    [discriminate|].
  destruct (Strings.SplitByte s " ") as [|parts0 [|parts1 [|x rest]]] eqn:Es;
    try discriminate.
  apply SplitByte_two in Es. destruct Es as (Hs & _ & Hno).
  destruct (lookupOperator_found RequirementSplit.ops parts0) as [E|[E Hin]];
    rewrite E; [discriminate|].
  assert (HinOps : In parts0 RequirementSplit.Ops).
  { simpl in Hin. simpl. intuition. }
  assert (Hres : RequirementSplit.Operator sp = parts0 ->
                 In (RequirementSplit.Operator sp) RequirementSplit.Ops
                 /\ exists text,
                     s = RequirementSplit.Operator sp ++ " " ++ text
                     /\ Strings.someByte (Ascii.eqb " ") text = false).
  { intros ->. split; [assumption|]. exists parts1. auto. }
  destruct (String.eqb_spec parts0 EmptyString) as [E0|N0]; [discriminate|].
  destruct (String.eqb_spec parts0 ">=") as [Ege|Nge]; simpl.
  - destruct (String.eqb parts1 "0");
      [intros H; injection H as <-; apply Hres; now rewrite Ege|].
    destruct (String.eqb parts1 "0.a");
      [intros H; injection H as <-; apply Hres; now rewrite Ege|].
    intros H; injection H as <-. now apply Hres.
  - intros H; injection H as <-. now apply Hres.
Qed.

Lemma parse_split_shape_witness :
  exists text,
    "~> 3.5" = "~>" ++ " " ++ text
    /\ Strings.someByte (Ascii.eqb " ") text = false.
Proof.
  apply (parse_split_shape "~> 3.5"
           (RequirementSplit.mkSpecifier "~>"
              (RequirementSplit.ParsedVersionPtr
                 (Some (Version.mkVersion "3.5"))))).
  reflexivity.
Defined.

Lemma isPrereleaseLoop_spec
      (reqs : list RequirementScan.RequirementSpecifier) :
  RequirementScan.isPrereleaseLoop reqs = true
  <-> Exists (fun sp =>
                Strings.someByte Regexp.letter
                  (Version.version (RequirementScan.Version sp)) = true)
             reqs.
Proof.
  induction reqs as [|sp reqs IH]; simpl.
  - split; [discriminate | intros H; inversion H].
  - unfold Version.IsPrerelease, Version.letterPattern.
    rewrite RegexpExtra.MatchString_class.
    destruct (Strings.someByte Regexp.letter
                (Version.version (RequirementScan.Version sp))) eqn:E.
    + split; [intros _; now left | reflexivity].
    + rewrite IH. split; [intros H; now right|].
      intros H. inversion H; subst; [congruence | assumption].
Qed.

(** X26.  A set is a prerelease set exactly when the canonical string of
    the version of one of its specifiers has a letter; the set without
    specifier is not. *)
Theorem IsPrerelease_set_iff (r : RequirementScan.Requirement) :
  RequirementScan.IsPrerelease r = true
  <-> Exists (fun sp =>
                Strings.someByte Regexp.letter
                  (Version.version (RequirementScan.Version sp)) = true)
             (RequirementScan.requirements r).
Proof. apply isPrereleaseLoop_spec. Qed.

Lemma IsPrerelease_set_iff_witness :
  RequirementScan.IsPrerelease
    (RequirementScan.mkRequirement
       [RequirementScan.mkSpecifier ">" (Version.mkVersion "1.2");
        RequirementScan.mkSpecifier "<" (Version.mkVersion "2.0.pre.1")])
  = true.
Proof.
  apply (proj2 (IsPrerelease_set_iff _)).
  right. left. reflexivity.
Defined.

End RequirementExtra.

(** ** The matcher against the meaning of the patterns *)

Module RegexpSound.

Import Regexp RegexpSemantics.

Lemma Matches_Cat_intro (r1 r2 : regex) (b e : bool) (s1 s2 : string)
      (e1 b2 : bool) :
  e1 = e && isEmpty s2 -> b2 = b && isEmpty s1 ->
  Matches r1 b s1 e1 -> Matches r2 b2 s2 e ->
  Matches (Cat r1 r2) b (s1 ++ s2) e.
Proof. intros -> ->. apply MCat. Qed.

Lemma append_empty_inv (s1 s2 : string) :
  s1 ++ s2 = EmptyString -> s1 = EmptyString /\ s2 = EmptyString.
Proof. destruct s1; simpl; [auto | discriminate]. Qed.

Lemma Matches_Cat_inv (r1 r2 : regex) (b : bool) (s : string) (e : bool) :
  Matches (Cat r1 r2) b s e ->
  exists s1 s2,
    s = s1 ++ s2
    /\ Matches r1 b s1 (e && isEmpty s2)
    /\ Matches r2 (b && isEmpty s1) s2 e.
Proof. intros H. inversion H; subst. eauto. Qed.

Lemma nullable_Matches (r : regex) :
  forall b e, nullable b e r = true <-> Matches r b EmptyString e.
Proof.
  induction r as [| |p|r1 IH1 r2 IH2|r1 IH1 r2 IH2|r IH| |];
    intros b e; simpl.
  - split; [discriminate | intros H; inversion H].
  - split; [constructor | reflexivity].
  - split; [discriminate | intros H; inversion H].
  - rewrite andb_true_iff, IH1, IH2. split.
    + intros [H1 H2].
      apply (Matches_Cat_intro r1 r2 b e EmptyString EmptyString e b);
        simpl; rewrite ?andb_true_r; auto.
    + intros H. apply Matches_Cat_inv in H.
      destruct H as (s1 & s2 & E & H1 & H2). symmetry in E.
      apply append_empty_inv in E. destruct E; subst.
      simpl in H1, H2. rewrite andb_true_r in H1, H2. auto.
  - rewrite orb_true_iff, IH1, IH2. split.
    + intros [H|H]; [now apply MAltL | now apply MAltR].
    + intros H. inversion H; subst; auto.
  - split; [constructor | reflexivity].
  - split; [intros ->; constructor | intros H; now inversion H].
  - split; [intros ->; constructor | intros H; now inversion H].
Qed.

Lemma Matches_cat (r1 r2 : regex) (b e : bool) (s : string) :
  Matches (cat r1 r2) b s e <-> Matches (Cat r1 r2) b s e.
Proof.
  destruct r1; try tauto; simpl.
  - split; intros H; [inversion H|].
    apply Matches_Cat_inv in H. destruct H as (s1 & s2 & _ & H1 & _).
    inversion H1.
  - split.
    + intros H.
      apply (Matches_Cat_intro Eps r2 b e EmptyString s
               (e && isEmpty s) b); simpl; rewrite ?andb_true_r;
        auto using MEps.
    + intros H. apply Matches_Cat_inv in H.
      destruct H as (s1 & s2 & -> & H1 & H2).
      inversion H1; subst. simpl in *. now rewrite andb_true_r in H2.
Qed.

Lemma deriv_sound (r : regex) :
  forall b c s e,
    Matches (deriv b c r) false s e -> Matches r b (String c s) e.
Proof.
  induction r as [| |p|r1 IH1 r2 IH2|r1 IH1 r2 IH2|r IH| |];
    intros b c s e H; simpl in H; try (now inversion H).
  - destruct (p c) eqn:Hp; inversion H; subst. now constructor.
  - assert (L : Matches (cat (deriv b c r1) r2) false s e ->
                Matches (Cat r1 r2) b (String c s) e).
    { intros HL. apply Matches_cat in HL. apply Matches_Cat_inv in HL.
      destruct HL as (sa & sb & -> & Ha & Hb).
      simpl in Hb. apply IH1 in Ha.
      change (String c (sa ++ sb)) with (String c sa ++ sb).
      apply (Matches_Cat_intro r1 r2 b e (String c sa) sb
               (e && isEmpty sb) false); simpl;
        rewrite ?andb_false_r; auto. }
    destruct (nullable b false r1) eqn:N; [|now apply L].
    inversion H; subst; [now apply L|].
    apply nullable_Matches in N.
    change (String c s) with (EmptyString ++ String c s).
    apply (Matches_Cat_intro r1 r2 b e EmptyString (String c s) false b);
      simpl; rewrite ?andb_false_r, ?andb_true_r; auto.
  - inversion H; subst; [apply MAltL | apply MAltR]; auto.
  - apply Matches_cat in H. apply Matches_Cat_inv in H.
    destruct H as (sa & sb & -> & Ha & Hb).
    simpl in Hb. apply IH in Ha.
    change (String c (sa ++ sb)) with (String c sa ++ sb).
    now apply MStarCons.
Qed.

Lemma deriv_complete (r : regex) (b : bool) (s' : string) (e : bool) :
  Matches r b s' e ->
  forall c s, s' = String c s -> Matches (deriv b c r) false s e.
Proof.
  induction 1 as [b e|p c b e Hp|r1 r2 b e s1 s2 H1 IH1 H2 IH2
                  |r1 r2 b e s H IH|r1 r2 b e s H IH|r b e
                  |r b e c s1 s2 H1 IH1 H2 IH2|e|b];
    intros c0 s0 Heq; try discriminate.
  - injection Heq as -> <-. simpl. rewrite Hp. constructor.
  - simpl. destruct s1 as [|a s1]; simpl in Heq.
    + subst s2. simpl in H1, IH2. rewrite andb_false_r in H1.
      apply nullable_Matches in H1. rewrite H1.
      apply MAltR. specialize (IH2 c0 s0 eq_refl).
      now rewrite andb_true_r in IH2.
    + injection Heq as -> <-. specialize (IH1 c0 s1 eq_refl).
      simpl in H2. rewrite andb_false_r in H2.
      assert (L : Matches (cat (deriv b c0 r1) r2) false (s1 ++ s2) e).
      { apply Matches_cat.
        apply (Matches_Cat_intro _ _ false e s1 s2 (e && isEmpty s2) false);
          auto. }
      destruct (nullable b false r1); [now apply MAltL | exact L].
  - simpl. apply MAltL. now apply IH.
  - simpl. apply MAltR. now apply IH.
  - simpl in Heq. injection Heq as -> <-. simpl.
    apply Matches_cat.
    apply (Matches_Cat_intro _ _ false e s1 s2 (e && isEmpty s2) false);
      auto.
Qed.

(** The matcher decides the meaning of the patterns. *)
Lemma matchFrom_Matches (s : string) :
  forall (b : bool) (r : regex),
    matchFrom b r s = true <-> Matches r b s true.
Proof.
  induction s as [|c s IH]; intros b r; simpl.
  - apply nullable_Matches.
  - rewrite IH. split.
    + apply deriv_sound.
    + intros H. now apply (deriv_complete r b (String c s) true H).
Qed.

Lemma Matches_Star_any (s : string) :
  forall b e, Matches (Star (Cls anyByte)) b s e.
Proof.
  induction s as [|c s IH]; intros b e; [constructor|].
  change (String c s) with (String c EmptyString ++ s).
  apply MStarCons; [now constructor | apply IH].
Qed.

Lemma append_assoc (a b c : string) : (a ++ b) ++ c = a ++ (b ++ c).
Proof. induction a as [|x a IH]; simpl; [reflexivity|]. now rewrite IH. Qed.

Lemma append_empty_r (a : string) : a ++ EmptyString = a.
Proof. induction a as [|x a IH]; simpl; [reflexivity|]. now rewrite IH. Qed.

Lemma isEmpty_true (s : string) : isEmpty s = true -> s = EmptyString.
Proof. destruct s; [reflexivity | discriminate]. Qed.

(** [MatchString] finds the pattern somewhere in the text: between a part
    before and a part after, the pattern matches the piece in between. *)
Lemma MatchString_Matches (r : regex) (s : string) :
  MatchString r s = true
  <-> exists pre mid post,
      s = pre ++ mid ++ post
      /\ Matches r (isEmpty pre) mid (isEmpty post).
Proof.
  unfold MatchString. rewrite matchFrom_Matches. split.
  - intros H. apply Matches_Cat_inv in H.
    destruct H as (pre & rest & -> & _ & Hrest).
    apply Matches_Cat_inv in Hrest.
    destruct Hrest as (mid & post & -> & Hmid & _).
    exists pre, mid, post. split; [reflexivity|].
    simpl in Hmid. exact Hmid.
  - intros (pre & mid & post & -> & H).
    apply (Matches_Cat_intro _ _ true true pre (mid ++ post)
             (isEmpty (mid ++ post)) (isEmpty pre));
      auto using Matches_Star_any.
    apply (Matches_Cat_intro _ _ (isEmpty pre) true mid post
             (isEmpty post) (isEmpty pre && isEmpty mid));
      auto using Matches_Star_any.
Qed.

Lemma allBytes_app (p : ascii -> bool) (s t : string) :
  Strings.allBytes p (s ++ t) = Strings.allBytes p s && Strings.allBytes p t.
Proof.
  induction s as [|c s IH]; simpl; [reflexivity|].
  now rewrite IH, andb_assoc.
Qed.

(** A match only reads bytes that some class of the pattern accepts. *)
Lemma Matches_alphabet (r : regex) (b : bool) (s : string) (e : bool) :
  Matches r b s e -> Strings.allBytes (accepts r) s = true.
Proof.
  induction 1 as [b e|p c b e Hp|r1 r2 b e s1 s2 H1 IH1 H2 IH2
                  |r1 r2 b e s H IH|r1 r2 b e s H IH|r b e
                  |r b e c s1 s2 H1 IH1 H2 IH2|e|b];
    try reflexivity.
  - simpl. now rewrite Hp.
  - rewrite allBytes_app. simpl.
    rewrite (RegexpProps.allBytes_impl (accepts r1) _ s1), 
            (RegexpProps.allBytes_impl (accepts r2) _ s2); auto;
      intros x Hx; rewrite Hx; auto using orb_true_r.
  - simpl. apply (RegexpProps.allBytes_impl (accepts r1)); auto.
    intros x Hx. now rewrite Hx.
  - simpl. apply (RegexpProps.allBytes_impl (accepts r2)); auto.
    intros x Hx. rewrite Hx. apply orb_true_r.
  - rewrite allBytes_app.
    change (accepts (Star r)) with (accepts r) in *.
    now rewrite IH1, IH2.
Qed.

End RegexpSound.

(** ** Versions built by New *)

Module ValidVersions.

Import Regexp RegexpSemantics Version.

Lemma Matches_BeginText_inv (b : bool) (s : string) (e : bool) :
  Matches BeginText b s e -> b = true /\ s = EmptyString.
Proof. intros H. inversion H; subst. auto. Qed.

Lemma Matches_EndText_inv (b : bool) (s : string) (e : bool) :
  Matches EndText b s e -> e = true /\ s = EmptyString.
Proof. intros H. inversion H; subst. auto. Qed.

Lemma Matches_Opt_inv (r : regex) (b : bool) (s : string) (e : bool) :
  Matches (Opt r) b s e -> Matches r b s e \/ s = EmptyString.
Proof.
  intros H. inversion H as [| | |? ? ? ? ? H'|? ? ? ? ? H'| | | |]; subst.
  - now left.
  - right. now inversion H'.
Qed.

Lemma Matches_Cls_inv (p : ascii -> bool) (b : bool) (s : string) (e : bool) :
  Matches (Cls p) b s e -> exists c, s = String c EmptyString /\ p c = true.
Proof. intros H. inversion H; subst. eauto. Qed.

(** What the anchored pattern accepts: blanks, then nothing or a piece
    the version pattern matches, then blanks. *)
Lemma isCorrect_inv (s : string) :
  isCorrect s = true ->
  exists ws1 body ws2,
    s = ws1 ++ body ++ ws2
    /\ Strings.allBytes space ws1 = true
    /\ Strings.allBytes space ws2 = true
    /\ (body = EmptyString \/ exists b e, Matches VersionPattern b body e).
Proof.
  unfold isCorrect. intros H.
  apply RegexpSound.MatchString_Matches in H.
  destruct H as (pre & mid & post & -> & H).
  change VersionPatternAnchored
    with (Cat BeginText
            (Cat (Star (Cls space))
               (Cat (Opt VersionPattern)
                  (Cat (Star (Cls space)) EndText)))) in H.
  apply RegexpSound.Matches_Cat_inv in H.
  destruct H as (s0 & r1 & -> & H0 & H).
  apply Matches_BeginText_inv in H0. destruct H0 as [Hpre ->].
  apply RegexpSound.isEmpty_true in Hpre. subst pre.
  apply RegexpSound.Matches_Cat_inv in H.
  destruct H as (ws1 & r2 & -> & Hws1 & H).
  apply RegexpSound.Matches_Cat_inv in H.
  destruct H as (body & r3 & -> & Hbody & H).
  apply RegexpSound.Matches_Cat_inv in H.
  destruct H as (ws2 & r4 & -> & Hws2 & H).
  apply Matches_EndText_inv in H. destruct H as [Hpost ->].
  apply RegexpSound.isEmpty_true in Hpost. subst post.
  exists ws1, body, ws2. simpl.
  rewrite !RegexpSound.append_empty_r.
  split; [reflexivity|].
  split; [exact (RegexpSound.Matches_alphabet _ _ _ _ Hws1)|].
  split; [exact (RegexpSound.Matches_alphabet _ _ _ _ Hws2)|].
  apply Matches_Opt_inv in Hbody. destruct Hbody as [Hb| ->]; eauto.
Qed.

Lemma VersionPattern_first_digit (b : bool) (body : string) (e : bool) :
  Matches VersionPattern b body e ->
  exists d t, body = String d t /\ digit d = true.
Proof.
  intros H.
  change VersionPattern
    with (Cat (Cat (Cls digit) (Star (Cls digit)))
              (Seq [ Star (Cat (Lit ".") (Plus (Cls alnum)));
                     Opt (Seq [ Lit "-"; Plus (Cls alnumDash);
                                Star (Cat (Lit ".") (Plus (Cls alnumDash))) ]) ]))
    in H.
  apply RegexpSound.Matches_Cat_inv in H.
  destruct H as (s1 & s2 & -> & H1 & _).
  apply RegexpSound.Matches_Cat_inv in H1.
  destruct H1 as (x & y & -> & Hx & _).
  apply Matches_Cls_inv in Hx. destruct Hx as (d & -> & Hd).
  exists d, (y ++ s2). auto.
Qed.

Lemma VersionPattern_accepts (c : ascii) :
  accepts VersionPattern c = true ->
  Strings.isSpace c = false
  /\ (Ascii.eqb c "-" = true \/ alnum c || Ascii.eqb c "." = true).
Proof.
  destruct c as [[] [] [] [] [] [] [] []]; vm_compute; intros H;
    solve [discriminate H | split; [reflexivity | auto]].
Qed.

Lemma trimLeft_blank_prefix (ws x : string) :
  Strings.allBytes space ws = true ->
  Strings.trimLeft (ws ++ x) = Strings.trimLeft x.
Proof.
  induction ws as [|c ws IH]; simpl; [reflexivity|].
  intros H. apply andb_prop in H. destruct H as [Hc Hws].
  rewrite (RegexpProps.space_isSpace _ Hc). now apply IH.
Qed.

Lemma trimRight_blank (ws : string) :
  Strings.allBytes space ws = true -> Strings.trimRight ws = EmptyString.
Proof.
  induction ws as [|c ws IH]; simpl; [reflexivity|].
  intros H. apply andb_prop in H. destruct H as [Hc Hws].
  now rewrite (IH Hws), (RegexpProps.space_isSpace _ Hc).
Qed.

Lemma trimRight_blank_suffix (x ws : string) :
  Strings.allBytes space ws = true ->
  Strings.trimRight (x ++ ws) = Strings.trimRight x.
Proof.
  intros H. induction x as [|c x IH]; simpl.
  - now apply trimRight_blank.
  - now rewrite IH.
Qed.

Lemma trimRight_no_space (x : string) :
  Strings.allBytes (fun c => negb (Strings.isSpace c)) x = true ->
  Strings.trimRight x = x.
Proof.
  induction x as [|c x IH]; simpl; [reflexivity|].
  intros H. apply andb_prop in H. destruct H as [Hc Hx].
  rewrite (IH Hx). apply negb_true_iff in Hc. rewrite Hc.
  now destruct x.
Qed.

Lemma TrimSpace_body (ws1 body ws2 : string) :
  Strings.allBytes space ws1 = true ->
  Strings.allBytes space ws2 = true ->
  Strings.allBytes (fun c => negb (Strings.isSpace c)) body = true ->
  Strings.TrimSpace (ws1 ++ body ++ ws2) = body.
Proof.
  intros H1 H2 Hb. unfold Strings.TrimSpace.
  rewrite (trimLeft_blank_prefix _ _ H1).
  destruct body as [|d t].
  - simpl. rewrite <- (RegexpSound.append_empty_r ws2).
    rewrite (trimLeft_blank_prefix _ _ H2). reflexivity.
  - simpl in Hb. apply andb_prop in Hb. destruct Hb as [Hd Ht].
    apply negb_true_iff in Hd.
    change ((String d t ++ ws2)) with (String d (t ++ ws2)).
    cbn [Strings.trimLeft]. rewrite Hd.
    change (String d (t ++ ws2)) with (String d t ++ ws2).
    rewrite (trimRight_blank_suffix _ _ H2).
    apply trimRight_no_space. simpl. now rewrite Hd, Ht.
Qed.

(** The canonical string of a version [New] accepts is what the version
    pattern matched, with its dashes rewritten. *)
Lemma New_body (s : string) (v : Version) :
  New s = Ok v ->
  exists body,
    version v = Strings.ReplaceAllByte body "-" ".pre."
    /\ (body = EmptyString \/ exists b e, Matches VersionPattern b body e).
Proof.
  intros H.
  assert (Hs : MatchString slashedBlankPattern s = false)
    by apply RegexpExtra.MatchString_byte_then_BeginText.
  unfold New in H. rewrite Hs in H.
  destruct (isCorrect s) eqn:Hc; [|discriminate]. cbn [negb] in H.
  injection H as <-. cbn [version].
  destruct (isCorrect_inv _ Hc) as (ws1 & body & ws2 & -> & H1 & H2 & Hb).
  exists body. split; [|exact Hb].
  rewrite TrimSpace_body; auto.
  destruct Hb as [->|(b & e & Hm)]; [reflexivity|].
  apply RegexpSound.Matches_alphabet in Hm.
  revert Hm. apply RegexpProps.allBytes_impl.
  intros c Hc'. now rewrite (proj1 (VersionPattern_accepts c Hc')).
Qed.

Lemma ReplaceAllByte_allBytes (q : ascii -> bool) (old : ascii)
      (new s : string) :
  Strings.allBytes q new = true ->
  Strings.allBytes (fun c => Ascii.eqb c old || q c) s = true ->
  Strings.allBytes q (Strings.ReplaceAllByte s old new) = true.
Proof.
  intros Hnew. induction s as [|c s IH]; simpl; [reflexivity|].
  intros H. apply andb_prop in H. destruct H as [Hc Hs].
  destruct (Ascii.eqb c old) eqn:E.
  - rewrite RegexpSound.allBytes_app, Hnew. now apply IH.
  - simpl in Hc. simpl. rewrite Hc. now apply IH.
Qed.

Lemma digit_not_dash (d : ascii) : digit d = true -> Ascii.eqb d "-" = false.
Proof.
  destruct d as [[] [] [] [] [] [] [] []]; vm_compute; intros H;
    solve [reflexivity | discriminate H].
Qed.

Lemma New_shape (s : string) (v : Version) :
  New s = Ok v ->
  Strings.allBytes (fun c => alnum c || Ascii.eqb c ".") (version v) = true
  /\ ((version v = EmptyString /\ segments v = [])
      \/ exists x rest,
          segments v = x :: rest
          /\ x <> EmptyString
          /\ Strings.allBytes digit x = true).
Proof.
  intros H. destruct (New_body s v H) as (body & Hv & Hb).
  split.
  - rewrite Hv. apply ReplaceAllByte_allBytes; [reflexivity|].
    destruct Hb as [->|(b & e & Hm)]; [reflexivity|].
    apply RegexpSound.Matches_alphabet in Hm.
    revert Hm. apply RegexpProps.allBytes_impl.
    intros c Hc. destruct (VersionPattern_accepts c Hc) as [_ [E|E]];
      rewrite E; auto using orb_true_r.
  - destruct Hb as [->|(b & e & Hm)].
    + left. unfold segments. rewrite Hv. auto.
    + right. destruct (VersionPattern_first_digit _ _ _ Hm) as (d & t & -> & Hd).
      unfold segments. rewrite Hv. cbn [Strings.ReplaceAllByte].
      rewrite (digit_not_dash _ Hd).
      destruct (VersionExtra.findAllRuns_head_digit
                  d (Strings.ReplaceAllByte t "-" ".pre.") Hd)
        as (seg & more & E).
      exists (String d seg), more. split; [exact E|].
      split; [discriminate|].
      pose proof (VersionExtra.findAllRuns_well_formed
                    (String d (Strings.ReplaceAllByte t "-" ".pre."))) as W.
      rewrite E in W. inversion W as [|? ? [_ [Hx|Hx]] _]; subst;
        [exact Hx|].
      simpl in Hx. rewrite (RegexpExtra.digit_not_letter _ Hd) in Hx.
      discriminate.
Qed.

(** X27.  A version [New] accepts has a canonical string made of digits,
    letters and dots only.  Either the string is empty and the version
    has no segment (the input was blank), or its first segment is a
    non-empty run of digits. *)
Theorem New_valid_shape (s : string) (v : Version) :
  New s = Ok v ->
  Strings.allBytes (fun c => alnum c || Ascii.eqb c ".") (version v) = true
  /\ ((version v = EmptyString /\ segments v = [])
      \/ exists x rest,
          segments v = x :: rest
          /\ x <> EmptyString
          /\ Strings.allBytes digit x = true).
Proof. apply New_shape. Qed.

Lemma New_valid_shape_witness :
  Strings.allBytes (fun c => alnum c || Ascii.eqb c ".")
    (version (mkVersion "1.5.pre.3")) = true.
Proof.
  apply (New_valid_shape " 1.5-3" (mkVersion "1.5.pre.3")). reflexivity.
Defined.

Lemma truncateLoop_head (x : string) (rest0 rest : list string) :
  forall (i : nat) (cur : list string),
    (1 <= i)%nat ->
    (exists k, cur = x :: firstn k rest0) ->
    exists k, truncateLoop (x :: rest0) i rest cur = x :: firstn k rest0.
Proof.
  induction rest as [|y rest IH]; intros i cur Hi Hcur; [exact Hcur|].
  cbn [truncateLoop]. apply IH; [lia|].
  destruct (MatchString lettersPattern y); [|exact Hcur].
  destruct i as [|i]; [lia|]. exists i. reflexivity.
Qed.

Lemma digits_no_letter (x : string) :
  Strings.allBytes digit x = true -> MatchString lettersPattern x = false.
Proof.
  intros H. unfold lettersPattern.
  rewrite RegexpExtra.MatchString_plus_class.
  induction x as [|c x IH]; simpl in *; [reflexivity|].
  apply andb_prop in H. destruct H as [Hc Hx].
  now rewrite (RegexpExtra.digit_not_letter _ Hc), (IH Hx).
Qed.

(** After a first segment of digits the truncation keeps that segment and
    some of the segments that follow. *)
Lemma truncateSegments_head (x : string) (rest : list string) :
  Strings.allBytes digit x = true ->
  exists k, truncateSegments (x :: rest) = x :: firstn k rest.
Proof.
  intros Hx. unfold truncateSegments. cbn [truncateLoop].
  rewrite (digits_no_letter _ Hx).
  apply truncateLoop_head; [lia|].
  exists (List.length rest). now rewrite firstn_all.
Qed.

Lemma Join_joinTail (ys : list string) :
  forall x sep, Strings.Join (x :: ys) sep = x ++ Strings.joinTail ys sep.
Proof.
  induction ys as [|y ys IH]; intros x sep.
  - simpl. now rewrite RegexpSound.append_empty_r.
  - change (Strings.Join (x :: y :: ys) sep)
      with (x ++ sep ++ Strings.Join (y :: ys) sep).
    now rewrite IH.
Qed.

Lemma Matches_Star_class_intro (p : ascii -> bool) (t : string) :
  Strings.allBytes p t = true ->
  forall b e, Matches (Star (Cls p)) b t e.
Proof.
  induction t as [|c t IH]; intros H b e; [constructor|].
  simpl in H. apply andb_prop in H. destruct H as [Hc Ht].
  change (String c t) with (String c EmptyString ++ t).
  apply MStarCons; [now constructor | now apply IH].
Qed.

Lemma Matches_Plus_class_intro (p : ascii -> bool) (x : string) :
  x <> EmptyString -> Strings.allBytes p x = true ->
  forall b e, Matches (Plus (Cls p)) b x e.
Proof.
  intros Hne H b e. destruct x as [|c t]; [contradiction|].
  simpl in H. apply andb_prop in H. destruct H as [Hc Ht].
  change (String c t) with (String c EmptyString ++ t).
  apply MCat; [now constructor | now apply Matches_Star_class_intro].
Qed.

Lemma wellFormedSegment_alnum (y : string) :
  wellFormedSegment y -> y <> EmptyString /\ Strings.allBytes alnum y = true.
Proof.
  intros [Hne [H|H]]; (split; [exact Hne|]); revert H;
    apply RegexpProps.allBytes_impl; intros c Hc; unfold alnum;
    rewrite Hc; auto using orb_true_r.
Qed.

Lemma Matches_dotted (ys : list string) :
  Forall wellFormedSegment ys ->
  forall b e,
    Matches (Star (Cat (Lit ".") (Plus (Cls alnum)))) b
            (Strings.joinTail ys ".") e.
Proof.
  induction 1 as [|y ys Hy _ IH]; intros b e; [constructor|].
  destruct (wellFormedSegment_alnum _ Hy) as [Hne Hal].
  change (Strings.joinTail (y :: ys) ".")
    with (String "." (y ++ Strings.joinTail ys ".")).
  change (String "." (y ++ Strings.joinTail ys "."))
    with (String "." y ++ Strings.joinTail ys ".").
  apply MStarCons; [|apply IH].
  change (String "." y) with (String "." EmptyString ++ y).
  apply MCat; [now constructor | now apply Matches_Plus_class_intro].
Qed.

(** A first run of digits followed by well-formed segments, joined by
    dots, is a string the anchored pattern accepts. *)
Lemma isCorrect_Join (x : string) (ys : list string) :
  x <> EmptyString -> Strings.allBytes digit x = true ->
  Forall wellFormedSegment ys ->
  isCorrect (Strings.Join (x :: ys) ".") = true.
Proof.
  intros Hne Hx Hys. unfold isCorrect.
  apply RegexpProps.MatchString_of_full_match.
  apply RegexpSound.matchFrom_Matches.
  rewrite Join_joinTail.
  set (body := x ++ Strings.joinTail ys ".").
  assert (Hbody : forall b e, Matches VersionPattern b body e).
  { intros b e. unfold body.
    rewrite <- (RegexpSound.append_empty_r (Strings.joinTail ys ".")).
    change VersionPattern
      with (Cat (Plus (Cls digit))
              (Cat (Star (Cat (Lit ".") (Plus (Cls alnum))))
                 (Opt (Seq [ Lit "-"; Plus (Cls alnumDash);
                             Star (Cat (Lit ".")
                                       (Plus (Cls alnumDash))) ])))).
    apply MCat; [now apply Matches_Plus_class_intro|].
    apply MCat; [now apply Matches_dotted|].
    apply MAltR. constructor. }
  change VersionPatternAnchored
    with (Cat BeginText
            (Cat (Star (Cls space))
               (Cat (Opt VersionPattern)
                  (Cat (Star (Cls space)) EndText)))).
  replace body
    with (EmptyString ++ (EmptyString ++ (body ++ (EmptyString ++ EmptyString))))
    by (simpl; apply RegexpSound.append_empty_r).
  apply MCat; [constructor|].
  apply MCat; [constructor|].
  apply MCat; [apply MAltL, Hbody|].
  apply MCat; constructor.
Qed.

Lemma New_of_isCorrect (t : string) :
  isCorrect t = true -> exists r, New t = Ok r.
Proof.
  intros H. unfold New. rewrite H. cbn [negb]. eexists. reflexivity.
Qed.

Lemma Forall_firstn_of (A : Type) (P : A -> Prop) (k : nat) (l : list A) :
  Forall P l -> Forall P (firstn k l).
Proof.
  intros H. rewrite <- (firstn_skipn k l) in H.
  apply Forall_app in H. tauto.
Qed.

Lemma Release_of_valid (s : string) (v : Version) :
  New s = Ok v ->
  exists r t, Release v = Some r /\ New t = Ok r.
Proof.
  intros H. unfold Release.
  destruct (IsPrerelease v) eqn:P; cbn [negb]; [|exists v, s; auto].
  destruct (New_shape s v H) as [_ [[Hv _]|(x & rest & Hs & Hne & Hx)]].
  - unfold IsPrerelease in P. rewrite Hv in P. vm_compute in P.
    discriminate.
  - rewrite Hs. destruct (truncateSegments_head x rest Hx) as (k & ->).
    pose proof (VersionExtra.findAllRuns_well_formed (version v)) as W.
    fold (segments v) in W. rewrite Hs in W.
    inversion W as [|? ? _ Wrest]; subst.
    destruct (New_of_isCorrect
                (Strings.Join (x :: firstn k rest) ".")
                (isCorrect_Join x (firstn k rest) Hne Hx
                   (Forall_firstn_of _ _ k rest Wrest))) as (r & Hr).
    rewrite Hr. eauto.
Qed.

(** X28.  [Release] never returns nil on a version [New] accepted: it
    returns the version itself, or a version [New] accepts in its
    turn. *)
Theorem Release_never_nil (s : string) (v : Version) :
  New s = Ok v ->
  exists r t, Release v = Some r /\ New t = Ok r.
Proof. apply Release_of_valid. Qed.

Lemma Release_never_nil_witness :
  exists r t, Release (mkVersion "1.a.2.b.3") = Some r /\ New t = Ok r.
Proof.
  apply (Release_never_nil "1.a.2.b.3" (mkVersion "1.a.2.b.3")).
  reflexivity.
Defined.

(** X29.  On a version [New] accepted, [Bump] panics with an index out of
    range exactly when the canonical string is empty, that is when the
    input was blank; on every other valid version the slice it indexes
    has an element. *)
Theorem Bump_index_panic_iff_blank (s : string) (v : Version) :
  New s = Ok v ->
  Bump v = Panics "runtime error: index out of range [-1]"
  <-> version v = EmptyString.
Proof.
  intros H. split.
  - intros HB.
    destruct (New_shape s v H) as [_ [[Hv _]|(x & rest & Hs & Hne & Hx)]];
      [exact Hv|].
    exfalso. unfold Bump in HB. rewrite Hs in HB.
    destruct (truncateSegments_head x rest Hx) as (k & E).
    rewrite E in HB. clear E.
    set (T := firstn k rest) in HB.
    assert (HT : exists U,
               (if (1 <? List.length (x :: T))%nat
                then firstn (List.length (x :: T) - 1) (x :: T)
                else x :: T) = x :: U).
    { destruct T as [|y T']; simpl; eauto. }
    destruct HT as (U & HU). rewrite HU in HB.
    destruct (rev (x :: U)) as [|lastSegment front] eqn:Er.
    + apply (f_equal (@List.length string)) in Er.
      rewrite length_rev in Er. discriminate.
    + destruct (Strconv.Atoi lastSegment) as [num ok].
      destruct ok; cbn [negb] in HB; [|discriminate].
      destruct (New (Strings.Join _ _)); discriminate.
  - intros Hv. destruct v as [ver]. simpl in Hv. subst ver.
    vm_compute. reflexivity.
Qed.

Lemma Bump_index_panic_iff_blank_witness :
  Bump (mkVersion "") = Panics "runtime error: index out of range [-1]".
Proof.
  apply (proj2 (Bump_index_panic_iff_blank "  " (mkVersion "") eq_refl)).
  reflexivity.
Defined.

End ValidVersions.
